(** * The markdown-to-feed build of the blog

    A shallow embedding of the build script (the module that exports
    [markdownToJson]) that turns the markdown posts of [content/posts] into
    the feed [src/routes/blog/_posts.json], and the properties of the feed
    that the specification states.

    The script is TypeScript run by Node.js.  What it takes from the language
    ([String.prototype.split], [trim], [substring], [endsWith], truthiness,
    [??], [?.], [<]) is modelled in [Module JS] after ECMAScript.  What it
    takes from the engine and from npm packages ([Array.prototype.sort],
    [Date.parse], [loadFront], [Marked.parse], [excerptHtml]) is a field of
    the record [Platform]; the file system is the record [World].  Every
    call that may throw has a completion: the comparison of two dates inside
    the sort and [JSON.stringify] before the write are among them. *)

From Stdlib Require Import ZArith String Ascii.
From stdpp Require Import base option list sorting gmap.

Local Open Scope Z_scope.
Set Warnings "-register-all".

(* ===================================================================== *)
(** ** ECMAScript values and string operations                            *)
(* ===================================================================== *)

Module JS.

(** A String value is a sequence of UTF-16 code units. *)
Abbreviation jsstring := (list N).

(** The code units of an ASCII literal. *)
Definition js (s : string) : jsstring := N_of_ascii <$> list_ascii_of_string s.
Arguments js : simpl never.

(** Number values: the integers (time values are whole milliseconds) and
    NaN.  Fractions and the infinities do not occur in what the script
    computes and are left out. *)
Inductive number := NaN | Num (z : Z).

(** The values that the scalars, sequences and mappings of a YAML header
    load to, and those the script builds.  The header is used as it is
    loaded ([yamlHeader as any]): nothing checks a value against the type
    [PostYamlHeader].  A [Date] object is its time value.  A YAML alias to
    an anchor that stands around it loads to the very sequence or mapping
    it is in, [up] levels further out (where the header holds [JAlias 0] as
    the value of a key, that value is the header): a value that holds
    itself. *)
Inductive jsval :=
  | JUndefined
  | JNull
  | JBool (b : bool)
  | JNum (n : number)
  | JStr (s : jsstring)
  | JDate (t : number)
  | JArr (l : list jsval)
  | JObj (o : list (jsstring * jsval))
  | JAlias (up : nat).

(** ToBoolean. *)
Definition truthy (v : jsval) : bool :=
  match v with
  | JUndefined | JNull => false
  | JBool b => b
  | JNum NaN => false
  | JNum (Num z) => negb (z =? 0)
  | JStr s => negb (bool_decide (s = []))
  | JDate _ | JArr _ | JObj _ | JAlias _ => true
  end.

(** [a ?? b]. *)
Definition nullish (v : jsval) : bool :=
  match v with JUndefined | JNull => true | _ => false end.

Definition coalesce (a b : jsval) : jsval := if nullish a then b else a.

(** An object: its own properties by key.  Reading a missing property gives
    [undefined]. *)
Abbreviation obj := (gmap jsstring jsval).

Definition get (o : obj) (k : jsstring) : jsval := default JUndefined (o !! k).

(** *** Strings *)

(** WhiteSpace and LineTerminator code units, the ones [trim] removes. *)
Definition is_white_space (c : N) : bool :=
  bool_decide (c ∈ [9; 10; 11; 12; 13; 32; 160; 5760; 8232; 8233; 8239; 8287;
                    12288; 65279]%N)
  || ((8192 <=? c)%N && (c <=? 8202)%N).

Fixpoint drop_while (p : N → bool) (s : jsstring) : jsstring :=
  match s with
  | c :: s' => if p c then drop_while p s' else s
  | [] => []
  end.

(** [s.trim()]. *)
Definition trim (s : jsstring) : jsstring :=
  reverse (drop_while is_white_space (reverse (drop_while is_white_space s))).

(** [s.split(sep)] for a separator of one code unit: the pieces between the
    occurrences of [sep], in order, empty ones included; the empty string
    splits into one empty piece. *)
Fixpoint split (sep : N) (s : jsstring) : list jsstring :=
  match s with
  | [] => [[]]
  | c :: s' =>
      if bool_decide (c = sep) then [] :: split sep s'
      else match split sep s' with
           | piece :: pieces => (c :: piece) :: pieces
           | [] => [[c]]
           end
  end.

(** [s.substring(from, to)] for non-negative arguments: both are clamped to
    the length and swapped when out of order. *)
Definition substring (s : jsstring) (from to : nat) : jsstring :=
  let a := (from `min` length s)%nat in
  let b := (to `min` length s)%nat in
  take ((a `max` b) - (a `min` b))%nat (drop (a `min` b)%nat s).

(** [s.endsWith(suffix)]. *)
Definition endsWith (s suffix : jsstring) : bool :=
  bool_decide (length suffix ≤ length s)%nat
  && bool_decide (drop (length s - length suffix)%nat s = suffix).

(** [path.join] of a directory and a name that holds no separator. *)
Definition path_join (dir name : jsstring) : jsstring := dir ++ js "/" ++ name.

(** *** Exceptions and completions *)

Inductive exn :=
  | TypeError (what : string)
  | SystemError (code : string)
  | PackageError (package : string).

(** The completion of a call that may throw. *)
Inductive result (A : Type) :=
  | Ok (a : A)
  | Throw (e : exn).
Arguments Ok {A} a.
Arguments Throw {A} e.

(** Statements in a row: the first that throws ends them. *)
Global Instance result_ret : MRet result := λ A a, Ok a.

Global Instance result_bind : MBind result := λ A B k r,
  match r with
  | Ok a => k a
  | Throw e => Throw e
  end.

(** *** [JSON.stringify] *)

(** A value that holds itself: an alias, or a sequence or mapping with one
    inside. *)
Fixpoint circular (v : jsval) : bool :=
  match v with
  | JAlias _ => true
  | JArr l => existsb circular l
  | JObj o => existsb (λ kv, circular kv.2) o
  | _ => false
  end.

(** [JSON.stringify({ posts })], as far as the script depends on it: the
    text goes to the file unread, what shows is whether the call completes.
    It throws a TypeError when it comes to a value that holds itself;
    [undefined] is left out, NaN and a [Date] without a time value are
    written as [null]. *)
Definition JSON_stringify (posts : list obj) : result unit :=
  if bool_decide (Forall (map_Forall (λ _ v, circular v = false)) posts)
  then Ok ()
  else Throw (TypeError "Converting circular structure to JSON").

End JS.
Export JS.

(* ===================================================================== *)
(** ** What the script runs on                                            *)
(* ===================================================================== *)

(** The engine's built-ins and the npm packages the script calls.  A call
    that throws completes with [Throw]. *)
Record Platform := {
  (** [Date.parse(s)]: a time value, or NaN when [s] is not read as a date. *)
  Date_parse : jsstring → number;
  (** [array.sort(comparefn)]; it throws what a call of [comparefn]
      throws. *)
  Array_sort : (obj → obj → result Z) → list obj → result (list obj);
  (** IsLessThan(a, b) when an operand is a String, an Array or a plain
      object, where the comparison goes through ToPrimitive: [Some true],
      [Some false], or [None] for its result [undefined]; a TypeError when
      an operand has no primitive value. *)
  IsLessThan_other : jsval → jsval → result (option bool);
  (** [loadFront(text)] of yaml-front-matter: the header's keys and the
      body under [__content]. *)
  loadFront : jsstring → result obj;
  (** [Marked.parse(markdown)] of @ts-stack/markdown. *)
  Marked_parse : jsval → result jsstring;
  (** [excerptHtml(html, { pruneLength })] of excerpt-html. *)
  excerptHtml : jsstring → Z → result jsstring;
}.

(** The file system the script reads and writes. *)
Record World := {
  (** [process.cwd()]. *)
  cwd : jsstring;
  (** [fs.readdirSync(dir)]: the names in [dir], in the system's order. *)
  readdirSync : jsstring → result (list jsstring);
  (** [fs.readFileSync(path, 'utf8')]. *)
  readFileSync : jsstring → result jsstring;
  (** Whether [fs.writeFileSync(path, data)] completes. *)
  writeFileSync : jsstring → result unit;
}.

(** What a run does that can be seen from outside, in order. *)
Inductive effect :=
  (** [console.log(e)] of the [catch] block. *)
  | Logged_exception (e : exn)
  (** [console.log(`✅ ${slug}`)], kept as the value interpolated. *)
  | Logged_ok (slug : jsval)
  (** [fs.writeFileSync(path, JSON.stringify({ posts }))]. *)
  | Written (path : jsstring) (posts : list obj).

(** A computation of the script: the effects so far and how it completed.
    For an [async] function [Throw] is the rejection of its promise. *)
Definition M (A : Type) : Type := list effect * result A.

Definition ret {A} (a : A) : M A := ([], Ok a).

Definition bind {A B} (m : M A) (k : A → M B) : M B :=
  match m with
  | (out, Ok a) => let '(out', r) := k a in (out ++ out', r)
  | (out, Throw e) => (out, Throw e)
  end.

Definition lift {A} (r : result A) : M A := ([], r).

Definition emit (e : effect) : M unit := ([e], Ok ()).

(** [try { body } catch (e) { handler(e) }]. *)
Definition try_catch {A} (body : M A) (handler : exn → M A) : M A :=
  match body with
  | (out, Ok a) => (out, Ok a)
  | (out, Throw e) => let '(out', r) := handler e in (out ++ out', r)
  end.

Notation "'let*' x := m 'in' k" := (bind m (λ x, k))
  (at level 10, x name, m at level 100, k at level 200, only parsing).

(** [list.map(f)] for an [async] [f] without [await]: every call runs to
    its end in turn, a rejected promise stops nothing. *)
Fixpoint map_async {A B} (f : A → M B) (l : list A) : list effect * list (result B) :=
  match l with
  | [] => ([], [])
  | a :: l' =>
      let '(out, r) := f a in
      let '(out', rs) := map_async f l' in
      (out ++ out', r :: rs)
  end.

(** How [Promise.all] settles: with all the values, or with the first
    rejection. *)
Fixpoint all_settled {B} (rs : list (result B)) : result (list B) :=
  match rs with
  | [] => Ok []
  | Ok b :: rs' =>
      match all_settled rs' with
      | Ok bs => Ok (b :: bs)
      | Throw e => Throw e
      end
  | Throw e :: _ => Throw e
  end.

(** [await Promise.all(list.map(f))]. *)
Definition Promise_all {A B} (f : A → M B) (l : list A) : M (list B) :=
  let '(out, rs) := map_async f l in (out, all_settled rs).

(** [list.forEach(f)], also the [list.map(f)] whose result is dropped. *)
Fixpoint for_each {A} (f : A → M unit) (l : list A) : M unit :=
  match l with
  | [] => ret ()
  | a :: l' => let* _ := f a in for_each f l'
  end.

(* ===================================================================== *)
(** ** The script                                                         *)
(* ===================================================================== *)

Section Script.

Context (P : Platform) (w : World).

(** [const contentDir = path.join(process.cwd(), 'content', 'posts')] *)
Definition contentDir : jsstring :=
  path_join (path_join (cwd w) (js "content")) (js "posts").

(** [const targetFile = path.join(process.cwd(), 'src', 'routes', 'blog',
    '_posts.json')] *)
Definition targetFile : jsstring :=
  path_join (path_join (path_join (path_join (cwd w) (js "src")) (js "routes"))
               (js "blog")) (js "_posts.json").

(** ToNumber of the operands that convert without going through strings. *)
Definition to_number (v : jsval) : option number :=
  match v with
  | JNum n => Some n
  | JDate t => Some t
  | JUndefined => Some NaN
  | JNull => Some (Num 0)
  | JBool b => Some (Num (if b then 1 else 0))
  | JStr _ | JArr _ | JObj _ | JAlias _ => None
  end.

(** IsLessThan(a, b): [undefined] ([None]) as soon as one side is NaN. *)
Definition IsLessThan (a b : jsval) : result (option bool) :=
  match to_number a, to_number b with
  | Some (Num x), Some (Num y) => Ok (Some (bool_decide (x < y)))
  | Some _, Some _ => Ok None
  | _, _ => IsLessThan_other P a b
  end.

(** [a < b]: [true] when IsLessThan is [true], [false] also when it is
    [undefined]. *)
Definition js_lt (a b : jsval) : result bool :=
  r ← IsLessThan a b; mret (bool_decide (r = Some true)).

(** [a >= b] completes with [true]: IsLessThan(a, b) is [false]. *)
Definition js_ge (a b : jsval) : bool :=
  match IsLessThan a b with
  | Ok (Some false) => true
  | _ => false
  end.

(** [yamlHeader.tags?.split(',').map((t) => t.trim())] *)
Definition split_tags (tags : jsval) : result jsval :=
  match tags with
  | JUndefined | JNull => Ok JUndefined
  | JStr s => Ok (JArr (JStr <$> (trim <$> split 44%N s)))
  | JBool _ | JNum _ | JDate _ | JArr _ | JObj _ | JAlias _ =>
      Throw (TypeError "yamlHeader.tags?.split is not a function")
  end.

(** The argument of [getPostData]. *)
Record FileArg := { absFilePath : jsstring; file : jsstring }.

(** [async function getPostData({ absFilePath, file })] *)
Definition getPostData (a : FileArg) : M (option obj) :=
  let* fileContents := lift (readFileSync w (absFilePath a)) in
  try_catch
    (let* yamlHeader := lift (loadFront P fileContents) in
     let* contentHtml := lift (Marked_parse P (get yamlHeader (js "__content"))) in
     let* excerpt := lift (excerptHtml P contentHtml 250) in
     let date :=
       coalesce (get yamlHeader (js "date"))
                (JNum (Date_parse P (substring (file a) 0 10))) in
     let* tags := lift (split_tags (get yamlHeader (js "tags"))) in
     ret (Some (<[js "date" := date]>
               (<[js "tags" := tags]>
               (<[js "excerptHtml" := JStr excerpt]>
               (<[js "contentHtml" := JStr contentHtml]>
               (<[js "slug" := JStr (file a)]> yamlHeader)))))))
    (λ e, let* _ := emit (Logged_exception e) in ret None).

(** [(f) => ({ absFilePath: path.join(contentDir, f), file: f })] *)
Definition file_arg (f : jsstring) : FileArg :=
  {| absFilePath := path_join contentDir f; file := f |}.

(** [p?.published], then ToBoolean. *)
Definition is_published (p : option obj) : bool :=
  match p with
  | Some o => truthy (get o (js "published"))
  | None => false
  end.

(** The comparator given to [sort]: [a.date < b.date] may throw, and the
    call with it. *)
Definition by_date (a b : obj) : result Z :=
  lt ← js_lt (get a (js "date")) (get b (js "date"));
  if lt : bool then mret 1 else mret (-1).

(** [async function getSortedPostsData()].  [p as Post] changes no value:
    the entries left by the filter are posts. *)
Definition getSortedPostsData : M (list obj) :=
  let* fileNames := lift (readdirSync w contentDir) in
  let* allPostsData :=
    Promise_all getPostData
      (file_arg <$> filter (λ f, endsWith f (js ".md") = true) fileNames) in
  lift (Array_sort P by_date
          (omap id (filter (λ p, is_published p = true) allPostsData))).

(** [export const markdownToJson = async () => ...].  The statement that
    ends the script calls it inside a [try]; the call returns its promise at
    once, so that [catch] sees no rejection and a rejected run stays
    rejected. *)
Definition markdownToJson : M unit :=
  let* posts := getSortedPostsData in
  let* _ := for_each (λ p, emit (Logged_ok (get p (js "slug")))) posts in
  let* _ := lift (JSON_stringify posts) in
  let* _ := lift (writeFileSync w targetFile) in
  emit (Written targetFile posts).

(** The feed a run leaves in [targetFile], if it wrote one. *)
Definition feed_of (run : M unit) : option (list obj) :=
  last (omap (λ e, match e with Written _ posts => Some posts | _ => None end)
          run.1).

(** The exceptions a run logged. *)
Definition failures_of (run : M unit) : list exn :=
  omap (λ e, match e with Logged_exception x => Some x | _ => None end) run.1.

End Script.

(* ===================================================================== *)
(** ** Notions to state the properties with                               *)
(* ===================================================================== *)

Section Notions.

Context (P : Platform) (w : World).

(** The object literal that [getPostData] returns. *)
Definition post_record (f : jsstring) (yamlHeader : obj) (contentHtml excerpt : jsstring)
    (tags date : jsval) : obj :=
  <[js "date" := date]>
    (<[js "tags" := tags]>
    (<[js "excerptHtml" := JStr excerpt]>
    (<[js "contentHtml" := JStr contentHtml]>
    (<[js "slug" := JStr f]> yamlHeader)))).

(** The date [getPostData] gives the post of [f]. *)
Definition resolved_date (f : jsstring) (yamlHeader : obj) : jsval :=
  coalesce (get yamlHeader (js "date")) (JNum (Date_parse P (substring f 0 10))).

(** A file is ingested when it is read, its header is loaded, its body is
    rendered and cut, and its tags are split, all without an exception. *)
Inductive Ingested (a : FileArg) (p : obj) : Prop :=
  | ingested (text : jsstring) (yamlHeader : obj) (contentHtml excerpt : jsstring)
      (tags : jsval) :
      readFileSync w (absFilePath a) = Ok text →
      loadFront P text = Ok yamlHeader →
      Marked_parse P (get yamlHeader (js "__content")) = Ok contentHtml →
      excerptHtml P contentHtml 250 = Ok excerpt →
      split_tags (get yamlHeader (js "tags")) = Ok tags →
      p = post_record (file a) yamlHeader contentHtml excerpt tags
            (resolved_date (file a) yamlHeader) →
      Ingested a p.

(** The names [getSortedPostsData] keeps of a directory listing. *)
Definition md_files (fileNames : list jsstring) : list jsstring :=
  filter (λ f, endsWith f (js ".md") = true) fileNames.

(** What the file [f] contributes to the feed: its post when it is ingested
    and its [published] is truthy. *)
Definition entry (f : jsstring) : option obj :=
  match (getPostData P w (file_arg w f)).2 with
  | Ok (Some p) => if truthy (get p (js "published")) then Some p else None
  | _ => None
  end.

(** The exception that the [catch] block logs for [f], if any. *)
Definition failure (f : jsstring) : option exn :=
  match getPostData P w (file_arg w f) with
  | ([Logged_exception e], _) => Some e
  | _ => None
  end.

(** The keys that the literal sets after the spread. *)
Definition set_by_literal : list jsstring :=
  [js "slug"; js "contentHtml"; js "excerptHtml"; js "tags"; js "date"].

(** The post whose slug is [f]. *)
Definition has_slug (f : jsstring) (p : obj) : bool :=
  match get p (js "slug") with
  | JStr s => bool_decide (s = f)
  | _ => false
  end.

End Notions.

(** [tags?.split(',')] goes through when the header has no tags or has them
    as one string. *)
Definition tags_splittable (tags : jsval) : bool :=
  match tags with
  | JUndefined | JNull | JStr _ => true
  | _ => false
  end.

(** No value of the object holds itself. *)
Definition acyclic (o : obj) : bool :=
  bool_decide (map_Forall (λ _ v, circular v = false) o).

(** A date that [<] reads as a Number other than NaN. *)
Definition has_time_value (date : jsval) : bool :=
  match to_number date with
  | Some (Num _) => true
  | _ => false
  end.

(** [p] may stand before [q]: the date of [p] is not the earlier one. *)
Definition not_earlier (p q : obj) : Prop :=
  ∃ x y, to_number (get p (js "date")) = Some (Num x)
         ∧ to_number (get q (js "date")) = Some (Num y)
         ∧ y ≤ x.

(** The pieces put back together with [sep] between them. *)
Fixpoint join (sep : N) (pieces : list jsstring) : jsstring :=
  match pieces with
  | [] => []
  | [piece] => piece
  | piece :: pieces' => piece ++ sep :: join sep pieces'
  end.

(** [t] is [s] without the white space at its two ends. *)
Definition trimmed_of (s t : jsstring) : Prop :=
  ∃ before after,
    s = before ++ t ++ after
    ∧ Forall (λ c, is_white_space c = true) before
    ∧ Forall (λ c, is_white_space c = true) after
    ∧ (∀ c, head t = Some c → is_white_space c = false)
    ∧ (∀ c, last t = Some c → is_white_space c = false).

(** [v === undefined] *)
Definition is_undefined (v : jsval) : bool :=
  match v with JUndefined => true | _ => false end.

(** The keys that [JSON.stringify] writes for an object: those of the
    properties whose value is not [undefined]. *)
Definition serialized_keys (o : obj) : gset jsstring :=
  dom (filter (λ kv, is_undefined kv.2 = false) o).

(* ===================================================================== *)
(** ** The sort of Node.js                                                *)
(* ===================================================================== *)

(** [Array.prototype.sort] as V8 runs it on an array of fewer than 64
    elements (third_party/v8/builtins/array-sort.tq): the minimum run
    length is then the whole array, so the initial run found by
    [CountAndMakeRun] is completed by [BinaryInsertionSort] and nothing is
    merged.  ECMAScript leaves the order to the implementation when the
    comparator is not consistent, and [by_date] is not (it never answers
    0), so the order of the feed is the order of this algorithm.  A call of
    the comparator that throws ends the sort with its exception. *)
Module V8.
Section ArraySort.

Context {A : Type} (comparefn : A → A → result Z).

(** The loop of [CountAndMakeRun]: the elements that continue the run after
    [previousElement], and what is left. *)
Fixpoint run_after (isDescending : bool) (previousElement : A) (rest : list A)
  : result (list A * list A) :=
  match rest with
  | [] => mret ([], [])
  | currentElement :: rest' =>
      order ← comparefn currentElement previousElement;
      let stop :=
        if isDescending then bool_decide (0 ≤ order) else bool_decide (order < 0) in
      if stop then mret ([], rest)
      else
        '(run, remaining) ← run_after isDescending currentElement rest';
        mret (currentElement :: run, remaining)
  end.

(** [CountAndMakeRun]: the initial run, reversed when it descends, and what
    is left of the array. *)
Definition CountAndMakeRun (l : list A) : result (list A * list A) :=
  match l with
  | elementHigh :: elementLow :: rest =>
      order ← comparefn elementLow elementHigh;
      let isDescending := bool_decide (order < 0) in
      '(run, remaining) ← run_after isDescending elementLow rest;
      let whole := elementHigh :: elementLow :: run in
      mret (if isDescending then reverse whole else whole, remaining)
  | _ => mret (l, [])
  end.

(** The binary search of [BinaryInsertionSort] for the place of [pivot] in
    [sorted], between [left] and [right]. *)
Fixpoint search (fuel : nat) (pivot : A) (sorted : list A) (left right : nat)
  : result nat :=
  match fuel with
  | O => mret left
  | S fuel' =>
      if bool_decide (left < right)%nat then
        let mid := (left + (right - left) / 2)%nat in
        match sorted !! mid with
        | Some x =>
            order ← comparefn pivot x;
            if bool_decide (order < 0)
            then search fuel' pivot sorted left mid
            else search fuel' pivot sorted (S mid) right
        | None => mret left
        end
      else mret left
  end.

Definition insert_pivot (sorted : list A) (pivot : A) : result (list A) :=
  place ← search (length sorted) pivot sorted 0 (length sorted);
  mret (take place sorted ++ pivot :: drop place sorted).

(** [BinaryInsertionSort]: every element after the run is inserted in turn. *)
Fixpoint BinaryInsertionSort (sorted rest : list A) : result (list A) :=
  match rest with
  | [] => mret sorted
  | pivot :: rest' =>
      sorted' ← insert_pivot sorted pivot;
      BinaryInsertionSort sorted' rest'
  end.

Definition sort (l : list A) : result (list A) :=
  '(run, rest) ← CountAndMakeRun l;
  BinaryInsertionSort run rest.

End ArraySort.
End V8.

(* ===================================================================== *)
(** ** A platform to run examples on                                      *)
(* ===================================================================== *)

Module Node.

(** *** [Date.parse] on the date-only form [YYYY-MM-DD] *)

Definition digit (c : N) : option Z :=
  if ((48 <=? c) && (c <=? 57))%N then Some (Z.of_N c - 48) else None.

Fixpoint digits (acc : Z) (s : jsstring) : option Z :=
  match s with
  | [] => Some acc
  | c :: s' => d ← digit c; digits (10 * acc + d) s'
  end.

Definition is_leap (y : Z) : bool :=
  ((y mod 4 =? 0) && negb (y mod 100 =? 0)) || (y mod 400 =? 0).

Definition DaysInMonth (y m : Z) : Z :=
  if m =? 2 then (if is_leap y then 29 else 28)
  else if (m =? 4) || (m =? 6) || (m =? 9) || (m =? 11) then 30 else 31.

(** DayFromYear of ECMAScript: the day number of January 1st of [y]. *)
Definition DayFromYear (y : Z) : Z :=
  365 * (y - 1970) + (y - 1969) / 4 - (y - 1901) / 100 + (y - 1601) / 400.

(** The days of year [y] before its month [m] (1 to 12). *)
Fixpoint days_before (y : Z) (m : nat) : Z :=
  match m with
  | O => 0
  | S m' => match m' with
            | O => 0
            | _ => days_before y m' + DaysInMonth y (Z.of_nat m')
            end
  end.

Definition msPerDay : Z := 86400000.

(** The time value of midnight UTC that starts the day [y]-[m]-[d]. *)
Definition utc_midnight (y m d : Z) : Z :=
  msPerDay * (DayFromYear y + days_before y (Z.to_nat m) + (d - 1)).

(** [Date.parse]: the date-only form is UTC midnight of that day.  What an
    engine makes of any other string is its own choice; this platform reads
    none of them. *)
Definition parse_date (s : jsstring) : number :=
  match s with
  | [y1; y2; y3; y4; 45; m1; m2; 45; d1; d2]%N =>
      match digits 0 [y1; y2; y3; y4], digits 0 [m1; m2], digits 0 [d1; d2] with
      | Some y, Some m, Some d =>
          if bool_decide (1 ≤ m ≤ 12 ∧ 1 ≤ d ≤ DaysInMonth y m)
          then Num (utc_midnight y m d) else NaN
      | _, _, _ => NaN
      end
  | _ => NaN
  end.

(** *** The packages on small posts *)

(** [Marked.parse] on a body that is one line of plain words between line
    breaks: the line as a paragraph. *)
Definition marked (markdown : jsval) : result jsstring :=
  match markdown with
  | JStr body => Ok (js "<p>" ++ trim body ++ js "</p>" ++ [10%N])
  | _ => Throw (TypeError "Marked.parse: not a string")
  end.

Fixpoint strip_prefix (prefix s : jsstring) : jsstring :=
  match prefix, s with
  | c :: prefix', d :: s' => if bool_decide (c = d) then strip_prefix prefix' s' else s
  | _, _ => s
  end.

(** [excerptHtml] on one paragraph of plain words shorter than the limit:
    the words, without the tags. *)
Definition excerpt (html : jsstring) (pruneLength : Z) : result jsstring :=
  let words :=
    reverse (strip_prefix (reverse (js "</p>" ++ [10%N]))
               (reverse (strip_prefix (js "<p>") html))) in
  Ok (take (Z.to_nat pruneLength) words).

(** [loadFront], given as the table of the headers it returns on the texts
    of an example; [None] for a header it rejects with a [YAMLException],
    as it is taken to do on a text that is not listed. *)
Definition load_front (table : list (jsstring * option obj)) (text : jsstring)
  : result obj :=
  match list_find (λ entry, entry.1 = text) table with
  | Some (_, (_, Some header)) => Ok header
  | _ => Throw (PackageError "yaml-front-matter: YAMLException")
  end.

(** IsLessThan of two Strings compares their code units. *)
Fixpoint string_lt (s t : jsstring) : bool :=
  match s, t with
  | _, [] => false
  | [], _ :: _ => true
  | c :: s', d :: t' => (c <? d)%N || ((c =? d)%N && string_lt s' t')
  end.

(** ToPrimitive of an operand of [<], where it gives a String.  A mapping
    of the header is a plain object: its [valueOf] gives no primitive, and
    its [toString] is that of [Object.prototype] unless the mapping has a key
    [toString] of its own, whose value is no function; then the operand has
    no primitive value.  The conversions of other operands are not needed
    by the examples. *)
Definition to_primitive_string (v : jsval) : result (option jsstring) :=
  match v with
  | JStr s => Ok (Some s)
  | JObj o =>
      if bool_decide (js "toString" ∈ o.*1)
      then Throw (TypeError "Cannot convert object to primitive value")
      else Ok (Some (js "[object Object]"))
  | _ => Ok None
  end.

(** The left operand is converted first. *)
Definition less_than_other (a b : jsval) : result (option bool) :=
  px ← to_primitive_string a;
  py ← to_primitive_string b;
  match px, py with
  | Some s, Some t => mret (Some (string_lt s t))
  | _, _ => mret None
  end.

Definition platform (headers : list (jsstring * option obj)) : Platform := {|
  Date_parse := parse_date;
  Array_sort := λ comparefn posts, V8.sort comparefn posts;
  IsLessThan_other := less_than_other;
  loadFront := load_front headers;
  Marked_parse := marked;
  excerptHtml := excerpt;
|}.

(** *** A file system *)

(** The directory [/blog/content/posts] holding [files] in this order, each
    with its text or with the error that reading it raises. *)
Definition world (files : list (jsstring * result jsstring)) : World := {|
  cwd := js "/blog";
  readdirSync := λ dir,
    if bool_decide (dir = js "/blog/content/posts") then Ok (files.*1)
    else Throw (SystemError "ENOENT");
  readFileSync := λ path,
    match list_find (λ entry, path_join (js "/blog/content/posts") entry.1 = path) files with
    | Some (_, (_, text)) => text
    | None => Throw (SystemError "ENOENT")
    end;
  writeFileSync := λ _, Ok ();
|}.

(** A header from its keys. *)
Definition header (fields : list (jsstring * jsval)) : obj := list_to_map fields.

End Node.

(* ===================================================================== *)
(** ** What the script may expect of the platform                         *)
(* ===================================================================== *)

(** The answers of [comparefn] on the elements of [l] are backed by the
    relation [R]: a negative answer for [(a, b)] only when [a] may stand
    before [b], a positive one only when [b] may stand before [a], and 0
    only when both orders are right. *)
Definition backed_by {A} (comparefn : A → A → result Z) (R : relation A) (l : list A)
  : Prop :=
  ∀ a b order, a ∈ l → b ∈ l → comparefn a b = Ok order →
    (order < 0 → R a b)
    ∧ (0 < order → R b a)
    ∧ (order = 0 → R a b ∧ R b a).

(** The sort ends in one of two ways: with the elements of the array, each
    as often; or with an exception that [comparefn] threw on two elements
    of the array (two places of it, so never in an array of fewer than two
    elements). *)
Definition sort_permutes (P : Platform) : Prop :=
  ∀ comparefn posts,
    match Array_sort P comparefn posts with
    | Ok sorted => sorted ≡ₚ posts
    | Throw e => ∃ a b, [a; b] ⊆+ posts ∧ comparefn a b = Throw e
    end.

(** The sort places the elements by the answers it gets: when these are
    backed by a transitive relation, the result is ordered by it. *)
Definition sort_follows_answers (P : Platform) : Prop :=
  ∀ comparefn (R : relation obj) posts sorted,
    Transitive R → backed_by comparefn R posts →
    Array_sort P comparefn posts = Ok sorted → Sorted R sorted.

(** [loadFront] puts the text after the header under [__content]. *)
Definition loadFront_keeps_body (P : Platform) : Prop :=
  ∀ text yamlHeader, loadFront P text = Ok yamlHeader →
    ∃ body, yamlHeader !! js "__content" = Some (JStr body).

(** The example platform keeps the body when every header of its table has
    one. *)
Definition has_body (yamlHeader : obj) : bool :=
  match yamlHeader !! js "__content" with
  | Some (JStr _) => true
  | _ => false
  end.

(* ===================================================================== *)
(** ** Example directories                                                *)
(* ===================================================================== *)

Module Examples.

(** A post as the repository has them. *)
Definition loops_text : jsstring := js "---
title: rethink nested loops in Javascript functional
published: true
tags: javascript, functional, algorithms, tip
---
I want to start right away with the little problem statement".

Definition loops_header : obj := Node.header [
  (js "title", JStr (js "rethink nested loops in Javascript functional"));
  (js "published", JBool true);
  (js "tags", JStr (js "javascript, functional, algorithms, tip"));
  (js "__content", JStr (js "
I want to start right away with the little problem statement"))].

(** The same post with its tags as a YAML sequence. *)
Definition traits_text : jsstring := js "---
title: Polymorphism and Traits
published: true
tags: [rust, beginners]
---
Today we going to explore Polymorphism".

Definition traits_header : obj := Node.header [
  (js "title", JStr (js "Polymorphism and Traits"));
  (js "published", JBool true);
  (js "tags", JArr [JStr (js "rust"); JStr (js "beginners")]);
  (js "__content", JStr (js "
Today we going to explore Polymorphism"))].

(** A draft: [published: false]. *)
Definition draft_text : jsstring := js "---
title: Profiling with PHP
published: false
---
There are basically 3 simple steps".

Definition draft_header : obj := Node.header [
  (js "title", JStr (js "Profiling with PHP"));
  (js "published", JBool false);
  (js "__content", JStr (js "
There are basically 3 simple steps"))].

(** A post without the [published] key. *)
Definition unmarked_text : jsstring := js "---
title: Dart IO
---
Let us start with the example".

Definition unmarked_header : obj := Node.header [
  (js "title", JStr (js "Dart IO"));
  (js "__content", JStr (js "
Let us start with the example"))].

(** A post whose [published] is the quoted string [no]. *)
Definition quoted_text : jsstring := js "---
title: ReStructuredText Blogging
published: 'no'
---
Some time ago I got to know about sphinx".

Definition quoted_header : obj := Node.header [
  (js "title", JStr (js "ReStructuredText Blogging"));
  (js "published", JStr (js "no"));
  (js "__content", JStr (js "
Some time ago I got to know about sphinx"))].

(** A header that the YAML parser rejects: the sequence is not closed. *)
Definition broken_text : jsstring := js "---
title: [lifetimes made easy
published: true
---
As usual".

(** A post whose series is a sequence that holds itself: the alias stands
    inside the sequence that its anchor names. *)
Definition looping_text : jsstring := js "---
title: Writing a Proc-Macro
published: true
series: &parts [*parts]
---
Since I got to know proc macros".

Definition looping_header : obj := Node.header [
  (js "title", JStr (js "Writing a Proc-Macro"));
  (js "published", JBool true);
  (js "series", JArr [JAlias 0]);
  (js "__content", JStr (js "
Since I got to know proc macros"))].

(** A post whose date is a mapping with a key [toString]. *)
Definition mapped_text : jsstring := js "---
title: Rust Analyzer
published: true
date: { valueOf: 2020, toString: 2020 }
---
If you are coding in Rust".

Definition mapped_header : obj := Node.header [
  (js "title", JStr (js "Rust Analyzer"));
  (js "published", JBool true);
  (js "date", JObj [(js "valueOf", JNum (Num 2020)); (js "toString", JNum (Num 2020))]);
  (js "__content", JStr (js "
If you are coding in Rust"))].

Definition headers : list (jsstring * option obj) := [
  (loops_text, Some loops_header);
  (traits_text, Some traits_header);
  (draft_text, Some draft_header);
  (unmarked_text, Some unmarked_header);
  (quoted_text, Some quoted_header);
  (looping_text, Some looping_header);
  (mapped_text, Some mapped_header);
  (broken_text, None)].

Definition node : Platform := Node.platform headers.

(** The post that [getPostData] makes of [loops_text] in the file [f]. *)
Definition loops_post (f : jsstring) (date : jsval) : obj :=
  post_record f loops_header
    (js "<p>I want to start right away with the little problem statement</p>" ++ [10%N])
    (js "I want to start right away with the little problem statement")
    (JArr [JStr (js "javascript"); JStr (js "functional"); JStr (js "algorithms");
           JStr (js "tip")])
    date.

End Examples.

Module C1_examples.
Import Examples.

(** A directory with a draft, the post of the repository and a file that
    is no markdown. *)
Definition blog : World :=
  Node.world [(js "2018-09-27-profiling-with-php.md", Ok draft_text);
              (js "2019-08-21-rethink-loops.md", Ok loops_text);
              (js "notes.txt", Ok loops_text)].

(** A directory with the post whose tags are a sequence. *)
Definition blog_with_sequence : World :=
  Node.world [(js "2019-09-01-traits.md", Ok traits_text)].

End C1_examples.

Module C2_examples.
Import Examples.

(** A published post, a draft and a post without the key. *)
Definition blog : World :=
  Node.world [(js "2018-09-27-profiling-with-php.md", Ok draft_text);
              (js "2019-08-21-rethink-loops.md", Ok loops_text);
              (js "2018-09-22-dart-io-expedition.md", Ok unmarked_text)].

(** A post whose header says [published: 'no']. *)
Definition blog_with_quoted_flag : World :=
  Node.world [(js "2016-03-13-change-to-rst-based-blogging.md", Ok quoted_text)].

Definition quoted_post : obj :=
  post_record (js "2016-03-13-change-to-rst-based-blogging.md") quoted_header
    (js "<p>Some time ago I got to know about sphinx</p>" ++ [10%N])
    (js "Some time ago I got to know about sphinx")
    JUndefined (JNum (Num 1457827200000)).

End C2_examples.

Module C3_examples.
Import Examples.

(** Three posts, listed in the order of their names on disk. *)
Definition blog : World :=
  Node.world [(js "2016-03-13-change-to-rst-based-blogging.md", Ok loops_text);
              (js "2019-08-21-rethink-loops.md", Ok loops_text);
              (js "2018-11-25-prepare-a-dart-package.md", Ok loops_text)].

Definition feed : list obj :=
  [loops_post (js "2019-08-21-rethink-loops.md") (JNum (Num 1566345600000));
   loops_post (js "2018-11-25-prepare-a-dart-package.md") (JNum (Num 1543104000000));
   loops_post (js "2016-03-13-change-to-rst-based-blogging.md") (JNum (Num 1457827200000))].

(** A dated post and a page whose name starts with no date. *)
Definition blog_with_page : World :=
  Node.world [(js "2019-08-21-rethink-loops.md", Ok loops_text);
              (js "about.md", Ok loops_text)].

(** The same two files, listed the other way round. *)
Definition blog_with_page_first : World :=
  Node.world [(js "about.md", Ok loops_text);
              (js "2019-08-21-rethink-loops.md", Ok loops_text)].

End C3_examples.

Module C4_examples.
Import Examples.

(** Two posts of the same day, listed first then second. *)
Definition blog : World :=
  Node.world [(js "2019-08-21-first.md", Ok loops_text);
              (js "2019-08-21-second.md", Ok loops_text)].

End C4_examples.

Module C5_examples.
Import Examples.

Definition blog : World :=
  Node.world [(js "2020-04-19-lifetimes-made-easy.md", Ok broken_text);
              (js "2019-08-21-rethink-loops.md", Ok loops_text)].

(** The file with the broken header beside the post whose tags are a
    sequence. *)
Definition blog_with_sequence : World :=
  Node.world [(js "2020-04-19-lifetimes-made-easy.md", Ok broken_text);
              (js "2019-09-01-traits.md", Ok traits_text)].

(** The file with the broken header beside the post whose series holds
    itself. *)
Definition blog_with_alias : World :=
  Node.world [(js "2020-04-19-lifetimes-made-easy.md", Ok broken_text);
              (js "2020-06-07-proc-macro.md", Ok looping_text)].

Definition looping_post : obj :=
  post_record (js "2020-06-07-proc-macro.md") looping_header
    (js "<p>Since I got to know proc macros</p>" ++ [10%N])
    (js "Since I got to know proc macros")
    JUndefined (JNum (Num 1591488000000)).

End C5_examples.

Module C6_examples.
Import Examples.

(** The file of the specification: no date in the header. *)
Definition blog : World := Node.world [(js "2020-01-05-example.md", Ok loops_text)].

(** A page whose name starts with no date. *)
Definition blog_with_page : World := Node.world [(js "about.md", Ok loops_text)].

End C6_examples.

Module C7_examples.
Import Examples.

(** A post whose tags leave a gap between two commas. *)
Definition gap_text : jsstring := js "---
title: lifetimes made easy
published: true
tags: rust, , basics
---
As usual".

Definition gap_header : obj := Node.header [
  (js "title", JStr (js "lifetimes made easy"));
  (js "published", JBool true);
  (js "tags", JStr (js "rust, , basics"));
  (js "__content", JStr (js "
As usual"))].

Definition node : Platform := Node.platform [(gap_text, Some gap_header)].

Definition blog : World := Node.world [(js "2020-04-19-lifetimes-made-easy.md", Ok gap_text)].

Definition gap_post : obj :=
  post_record (js "2020-04-19-lifetimes-made-easy.md") gap_header
    (js "<p>As usual</p>" ++ [10%N]) (js "As usual")
    (JArr [JStr (js "rust"); JStr []; JStr (js "basics")])
    (JNum (Num 1587254400000)).

Definition loops_blog : World :=
  Node.world [(js "2019-08-21-rethink-loops.md", Ok loops_text)].

End C7_examples.

Module C8_examples.
Import Examples.

(** The post of the repository beside a directory named like a post: the
    read of a directory fails with EISDIR. *)
Definition blog : World :=
  Node.world [(js "2019-08-21-rethink-loops.md", Ok loops_text);
              (js "2020-drafts.md", Throw (SystemError "EISDIR"))].

End C8_examples.

Module C10_examples.
Import Examples.

Definition blog : World :=
  Node.world [(js "2019-08-21-rethink-loops.md", Ok loops_text)].

End C10_examples.

(* ===================================================================== *)
(** ** Notions for the further properties                                 *)
(* ===================================================================== *)

Section Further_notions.

Context (P : Platform) (w : World).

(** The exception that reading the file [f] of the content directory
    throws, if it throws. *)
Definition read_error (f : jsstring) : option exn :=
  match readFileSync w (path_join (contentDir w) f) with
  | Throw e => Some e
  | Ok _ => None
  end.

(** The first exception thrown inside the [try] of [getPostData] on the
    text of a file: by [loadFront], [Marked.parse], [excerptHtml] or the
    split of the tags, in this order. *)
Definition parse_error (text : jsstring) : option exn :=
  match loadFront P text with
  | Throw e => Some e
  | Ok yamlHeader =>
      match Marked_parse P (get yamlHeader (js "__content")) with
      | Throw e => Some e
      | Ok contentHtml =>
          match excerptHtml P contentHtml 250 with
          | Throw e => Some e
          | Ok _ =>
              match split_tags (get yamlHeader (js "tags")) with
              | Throw e => Some e
              | Ok _ => None
              end
          end
      end
  end.

(** The post of the file [f] when it is ingested and left out of the feed
    because its [published] is falsy. *)
Definition unpublished_post (f : jsstring) : option obj :=
  match (getPostData P w (file_arg w f)).2 with
  | Ok (Some p) => if truthy (get p (js "published")) then None else Some p
  | _ => None
  end.

End Further_notions.

(** The occurrences of the code unit [c] in [s]. *)
Definition occurrences (c : N) (s : jsstring) : nat := length (filter (λ d, d = c) s).

(** The keys of the header that the literal replaces by a String. *)
Definition replaced_by_string : list jsstring :=
  [js "slug"; js "contentHtml"; js "excerptHtml"].

Module More_examples.
Import Examples.

(** A file system with another listing of its content directory. *)
Definition relisted (w : World) (names : list jsstring) : World := {|
  cwd := cwd w;
  readdirSync := λ _, Ok names;
  readFileSync := readFileSync w;
  writeFileSync := writeFileSync w;
|}.

(** A file system whose files cannot be written: every write throws [e]. *)
Definition write_protected (w : World) (e : exn) : World := {|
  cwd := cwd w;
  readdirSync := readdirSync w;
  readFileSync := readFileSync w;
  writeFileSync := λ _, Throw e;
|}.

(** A file with a broken header, a post, a draft and a file that is no
    markdown. *)
Definition mixed : World :=
  Node.world [(js "2020-04-19-lifetimes-made-easy.md", Ok broken_text);
              (js "2019-08-21-rethink-loops.md", Ok loops_text);
              (js "2018-09-27-profiling-with-php.md", Ok draft_text);
              (js "notes.txt", Ok loops_text)].

(** A file with a broken header, a directory named like a post, a post, a
    file that may not be read, and again a file with a broken header. *)
Definition unreadable : World :=
  Node.world [(js "2020-04-19-lifetimes-made-easy.md", Ok broken_text);
              (js "2020-drafts.md", Throw (SystemError "EISDIR"));
              (js "2019-08-21-rethink-loops.md", Ok loops_text);
              (js "2019-secret.md", Throw (SystemError "EACCES"));
              (js "2020-05-01-lifetimes-again.md", Ok broken_text)].

(** A directory without markdown. *)
Definition without_markdown : World :=
  Node.world [(js "notes.txt", Ok loops_text); (js "cover.png", Throw (SystemError "EACCES"))].

(** A post and a draft; the same with other entries between them, one of
    which cannot be read. *)
Definition plain : World :=
  Node.world [(js "2019-08-21-rethink-loops.md", Ok loops_text);
              (js "2018-09-27-profiling-with-php.md", Ok draft_text)].

Definition cluttered : World :=
  Node.world [(js "images", Throw (SystemError "EISDIR"));
              (js "2019-08-21-rethink-loops.md", Ok loops_text);
              (js "notes.txt", Ok broken_text);
              (js "2018-09-27-profiling-with-php.md", Ok draft_text)].

(** Three posts of different days, and the same directory listed in
    another order. *)
Definition dated : World :=
  Node.world [(js "2016-03-13-change-to-rst-based-blogging.md", Ok loops_text);
              (js "2019-08-21-rethink-loops.md", Ok loops_text);
              (js "2018-11-25-prepare-a-dart-package.md", Ok loops_text)].

Definition dated_otherwise : World :=
  relisted dated [js "2018-11-25-prepare-a-dart-package.md";
                  js "2016-03-13-change-to-rst-based-blogging.md";
                  js "2019-08-21-rethink-loops.md"].

Definition dated_feed : list obj :=
  [loops_post (js "2019-08-21-rethink-loops.md") (JNum (Num 1566345600000));
   loops_post (js "2018-11-25-prepare-a-dart-package.md") (JNum (Num 1543104000000));
   loops_post (js "2016-03-13-change-to-rst-based-blogging.md") (JNum (Num 1457827200000))].

(** The post that [getPostData] makes of [unmarked_text]. *)
Definition unmarked_post : obj :=
  post_record (js "2018-09-22-dart-io-expedition.md") unmarked_header
    (js "<p>Let us start with the example</p>" ++ [10%N])
    (js "Let us start with the example")
    JUndefined (JNum (Num 1537574400000)).

Definition with_unmarked : World :=
  Node.world [(js "2018-09-22-dart-io-expedition.md", Ok unmarked_text)].

(** Two posts whose dates are mappings with a key [toString], and between
    them a file with a broken header. *)
Definition incomparable : World :=
  Node.world [(js "2020-09-20-rust-analyzer.md", Ok mapped_text);
              (js "2020-04-19-lifetimes-made-easy.md", Ok broken_text);
              (js "2020-10-03-rust-analyzer-again.md", Ok mapped_text)].

(** The post that [getPostData] makes of [mapped_text] in the file [f]. *)
Definition mapped_post (f : jsstring) : obj :=
  post_record f mapped_header
    (js "<p>If you are coding in Rust</p>" ++ [10%N])
    (js "If you are coding in Rust")
    JUndefined
    (JObj [(js "valueOf", JNum (Num 2020)); (js "toString", JNum (Num 2020))]).

End More_examples.

(* ===================================================================== *)
(** ** Tactics                                                            *)
(* ===================================================================== *)

(** Two keys spelled differently are different code unit sequences. *)
Ltac key_ne := let H := fresh in intros H; vm_compute in H; discriminate H.

(** An equation between closed terms, checked by running both sides. *)
Ltac by_running :=
  lazymatch goal with |- @eq ?T _ ?b => vm_cast_no_check (@eq_refl T b) end.

(* ===================================================================== *)
(** ** How a run unfolds                                                  *)
(* ===================================================================== *)

Section Unfolding.

Context (P : Platform) (w : World).

Lemma getPostData_ingested a p :
  Ingested P w a p → getPostData P w a = ([], Ok (Some p)).
Proof.
  intros [text h html ex tags Hread Hfront Hhtml Hex Htags ->].
  unfold getPostData, bind, lift, try_catch, ret; simpl.
  rewrite Hread, Hfront; simpl. rewrite Hhtml; simpl. rewrite Hex; simpl.
  by rewrite Htags.
Qed.

Lemma getPostData_Some a out p :
  getPostData P w a = (out, Ok (Some p)) → out = [] ∧ Ingested P w a p.
Proof.
  unfold getPostData, bind, lift, try_catch, ret; simpl.
  destruct (readFileSync w (absFilePath a)) as [text|e] eqn:Hread; simpl; [|done].
  destruct (loadFront P text) as [h|e] eqn:Hfront; simpl; [|done].
  destruct (Marked_parse P (get h (js "__content"))) as [html|e] eqn:Hhtml; simpl; [|done].
  destruct (excerptHtml P html 250) as [ex|e] eqn:Hex; simpl; [|done].
  destruct (split_tags (get h (js "tags"))) as [tags|e] eqn:Htags; simpl; [|done].
  intros [= <- <-]. split; [done|]. by econstructor.
Qed.

(** A call of [getPostData] ends in one of three ways: the post, a logged
    exception and [undefined], or the rejection raised by the read. *)
Lemma getPostData_cases a :
  (∃ p, getPostData P w a = ([], Ok (Some p)))
  ∨ (∃ e, getPostData P w a = ([Logged_exception e], Ok None)
          ∧ is_Some (match readFileSync w (absFilePath a) with Ok t => Some t | _ => None end))
  ∨ (∃ e, getPostData P w a = ([], Throw e) ∧ readFileSync w (absFilePath a) = Throw e).
Proof.
  unfold getPostData, bind, lift, try_catch, ret, emit; simpl.
  destruct (readFileSync w (absFilePath a)) as [text|e] eqn:Hread; simpl; [|eauto].
  destruct (loadFront P text) as [h|e]; simpl; [|eauto 6].
  destruct (Marked_parse P (get h (js "__content"))) as [html|e]; simpl; [|eauto 6].
  destruct (excerptHtml P html 250) as [ex|e]; simpl; [|eauto 6].
  destruct (split_tags (get h (js "tags"))) as [tags|e]; simpl; eauto 6.
Qed.

End Unfolding.

(** *** The batch *)

Lemma map_async_fmap {A B} (f : A → M B) (l : list A) :
  map_async f l = (concat ((f <$> l).*1), (f <$> l).*2).
Proof.
  induction l as [|a l IH]; [done|]. simpl. rewrite IH.
  by destruct (f a).
Qed.

Lemma all_settled_Ok {B} (rs : list (result B)) (bs : list B) :
  all_settled rs = Ok bs ↔ rs = Ok <$> bs.
Proof.
  revert bs. induction rs as [|[b|e] rs IH]; intros bs; simpl.
  - split; [by intros [= <-]|]. by destruct bs.
  - destruct (all_settled rs) as [bs'|e] eqn:Hrs.
    + split.
      * intros [= <-]. simpl. f_equal. by apply IH.
      * destruct bs as [|b0 bs0]; [done|]. intros [= -> Hbs].
        apply IH in Hbs. by simplify_eq.
    + split; [done|]. destruct bs as [|b0 bs0]; [done|]. intros [= -> Hbs].
      by apply IH in Hbs.
  - split; [done|]. by destruct bs.
Qed.

Lemma all_settled_Throw {B} (rs : list (result B)) (e : exn) :
  Throw e ∈ rs → ∃ e', all_settled rs = Throw e'.
Proof.
  induction rs as [|[b|e0] rs IH]; simpl.
  - by intros ?%elem_of_nil.
  - intros [?|Hin]%elem_of_cons; [done|].
    destruct (IH Hin) as [e' ->]. eauto.
  - eauto.
Qed.

Lemma all_settled_total {B} (rs : list (result B)) :
  (∀ r, r ∈ rs → ∃ b, r = Ok b) → ∃ bs, all_settled rs = Ok bs.
Proof.
  induction rs as [|r rs IH]; intros Hall; [by eexists|].
  destruct (Hall r) as [b ->]; [by left|].
  destruct IH as [bs Hbs]; [intros; apply Hall; by right|].
  simpl. rewrite Hbs. eauto.
Qed.

Section Batch.

Context (P : Platform) (w : World).

Lemma getPostData_effects f :
  (getPostData P w (file_arg w f)).1
  = match failure P w f with Some e => [Logged_exception e] | None => [] end.
Proof.
  unfold failure.
  destruct (getPostData_cases P w (file_arg w f))
    as [[p ->]|[(e & -> & _)|(e & -> & _)]]; done.
Qed.

Lemma effects_of_files (fs : list jsstring) :
  concat ((getPostData P w <$> (file_arg w <$> fs)).*1)
  = Logged_exception <$> omap (failure P w) fs.
Proof.
  induction fs as [|f fs IH]; [done|]. csimpl. rewrite IH, getPostData_effects.
  by destruct (failure P w f).
Qed.

Lemma entries_of_files (fs : list jsstring) (all : list (option obj)) :
  (getPostData P w <$> (file_arg w <$> fs)).*2 = Ok <$> all →
  omap id (filter (λ p, is_published p = true) all) = omap (entry P w) fs.
Proof.
  revert all. induction fs as [|f fs IH]; intros [|p all]; try done.
  csimpl. intros [= Hf Hall]. unfold entry at 1. rewrite Hf.
  rewrite filter_cons. specialize (IH _ Hall).
  case_decide as Hpub; destruct p as [p|]; simpl in Hpub; try done.
  - rewrite Hpub. csimpl. by rewrite IH.
  - by apply not_true_is_false in Hpub as ->.
Qed.

(** [getSortedPostsData], when the directory is listed and no read fails. *)
Lemma getSortedPostsData_Ok out posts :
  getSortedPostsData P w = (out, Ok posts) ↔
  ∃ fileNames,
    readdirSync w (contentDir w) = Ok fileNames
    ∧ (∀ f, f ∈ md_files fileNames →
         ∃ r, (getPostData P w (file_arg w f)).2 = Ok r)
    ∧ out = Logged_exception <$> omap (failure P w) (md_files fileNames)
    ∧ Array_sort P (by_date P) (omap (entry P w) (md_files fileNames)) = Ok posts.
Proof.
  unfold getSortedPostsData, bind, lift, Promise_all, ret.
  destruct (readdirSync w (contentDir w)) as [fileNames|e]; simpl;
    [|split; [done|by intros (? & ? & _)]].
  fold (md_files fileNames). rewrite map_async_fmap, effects_of_files.
  destruct (all_settled _) as [all|e] eqn:Hall.
  - apply all_settled_Ok in Hall. rewrite (entries_of_files _ _ Hall).
    rewrite !app_nil_r. split.
    + intros [= <- Hsorted]. exists fileNames. split_and!; try done.
      intros f Hf.
      assert ((getPostData P w (file_arg w f)).2 ∈
                (getPostData P w <$> (file_arg w <$> md_files fileNames)).*2) as Hin.
      { apply list_elem_of_fmap. eexists. split; [done|].
        apply list_elem_of_fmap. eexists. split; [done|].
        by apply list_elem_of_fmap_2. }
      rewrite Hall in Hin. apply list_elem_of_fmap in Hin as (r & -> & _). eauto.
    + intros (? & [= <-] & _ & -> & ->). done.
  - split; [done|]. intros (? & [= <-] & Hok & _). exfalso.
    destruct (all_settled_total
                (getPostData P w <$> (file_arg w <$> md_files fileNames)).*2)
      as [bs Hbs]; [|congruence].
    intros r (m & -> & (a & -> & (f & -> & Hf)%list_elem_of_fmap)%list_elem_of_fmap)%list_elem_of_fmap.
    destruct (Hok f Hf) as [r Hr]. eauto.
Qed.

End Batch.

(** *** The whole run *)

Section Run.

Context (P : Platform) (w : World).

(** A call of [getPostData] rejects exactly when the read throws. *)
Lemma getPostData_settles f :
  (∃ r, (getPostData P w (file_arg w f)).2 = Ok r)
  ↔ ∃ text, readFileSync w (path_join (contentDir w) f) = Ok text.
Proof.
  destruct (getPostData_cases P w (file_arg w f))
    as [[p Hp]|[(e & He & Hread)|(e & He & Hread)]]; simpl in *.
  - apply getPostData_Some in Hp as Hi. destruct Hi as [_ [text ? ? ? ? Hread _ _ _ _ _]].
    rewrite Hp. simpl in Hread. split; eauto.
  - rewrite He. simpl. destruct (readFileSync _ _) as [text|]; [|by destruct Hread].
    split; eauto.
  - rewrite He, Hread. simpl. split; by intros [? ?].
Qed.

Lemma getSortedPostsData_effects :
  ∃ es, (getSortedPostsData P w).1 = Logged_exception <$> es.
Proof.
  unfold getSortedPostsData, bind, lift, Promise_all, ret.
  destruct (readdirSync w (contentDir w)) as [fileNames|e]; simpl; [|by exists []].
  rewrite map_async_fmap, effects_of_files.
  destruct (all_settled _); simpl; rewrite ?app_nil_r; eauto.
Qed.

(** [JSON.stringify] completes exactly on posts none of which holds a
    value that holds itself. *)
Lemma JSON_stringify_Ok (posts : list obj) :
  JSON_stringify posts = Ok () ↔ Forall (λ p, acyclic p = true) posts.
Proof.
  unfold JSON_stringify, acyclic. case_bool_decide as Hall; split; try done.
  - intros _. eapply Forall_impl; [done|]. intros p Hp. by apply bool_decide_eq_true_2.
  - intros Hposts. exfalso. apply Hall. eapply Forall_impl; [done|].
    intros p Hp. by apply bool_decide_eq_true in Hp.
Qed.

Lemma JSON_stringify_nil : JSON_stringify [] = Ok ().
Proof. by apply JSON_stringify_Ok. Qed.

Lemma for_each_log (posts : list obj) :
  for_each (λ p, emit (Logged_ok (get p (js "slug")))) posts
  = ((λ p, Logged_ok (get p (js "slug"))) <$> posts, Ok ()).
Proof.
  induction posts as [|p posts IH]; [done|].
  cbn [for_each]. unfold bind at 1. cbn [emit]. by rewrite IH.
Qed.

(** The effects and the completion of [markdownToJson]. *)
Lemma markdownToJson_unfold :
  markdownToJson P w =
    match getSortedPostsData P w with
    | (out, Ok posts) =>
        let oks := (λ p, Logged_ok (get p (js "slug"))) <$> posts in
        match JSON_stringify posts with
        | Ok _ =>
            match writeFileSync w (targetFile w) with
            | Ok _ => (out ++ oks ++ [Written (targetFile w) posts], Ok ())
            | Throw e => (out ++ oks, Throw e)
            end
        | Throw e => (out ++ oks, Throw e)
        end
    | (out, Throw e) => (out, Throw e)
    end.
Proof.
  unfold markdownToJson, bind at 1.
  destruct (getSortedPostsData P w) as [out [posts|e]]; [|done].
  rewrite for_each_log. unfold bind, lift, emit.
  destruct (JSON_stringify posts) as [[]|e]; simpl; [|by rewrite ?app_nil_r].
  destruct (writeFileSync w (targetFile w)) as [[]|e]; simpl; by rewrite ?app_nil_r.
Qed.

Lemma no_feed_in_logs (es : list exn) (posts : list obj) :
  omap (λ e, match e with Written _ posts => Some posts | _ => None end)
    ((Logged_exception <$> es) ++ ((λ p, Logged_ok (get p (js "slug"))) <$> posts))
  = [].
Proof.
  rewrite omap_app.
  assert (∀ {A} (f : A → effect) (l : list A),
            (∀ a, match f a with Written _ _ => False | _ => True end) →
            omap (λ e, match e with Written _ ps => Some ps | _ => None end) (f <$> l)
            = @nil (list obj)) as Hnone.
  { intros A f l Hf. induction l as [|a l IH]; [done|]. csimpl.
    specialize (Hf a). by destruct (f a). }
  by rewrite !Hnone.
Qed.

(** A run leaves a feed exactly when the directory is listed, every [.md]
    file in it is read, the sort and [JSON.stringify] complete, and the
    target is written; the feed is then the sorted entries of the [.md]
    files. *)
Lemma feed_of_markdownToJson feed :
  feed_of (markdownToJson P w) = Some feed ↔
  ∃ fileNames,
    readdirSync w (contentDir w) = Ok fileNames
    ∧ (∀ f, f ∈ md_files fileNames →
         ∃ text, readFileSync w (path_join (contentDir w) f) = Ok text)
    ∧ Array_sort P (by_date P) (omap (entry P w) (md_files fileNames)) = Ok feed
    ∧ JSON_stringify feed = Ok ()
    ∧ writeFileSync w (targetFile w) = Ok ().
Proof.
  unfold feed_of. rewrite markdownToJson_unfold.
  destruct getSortedPostsData_effects as [es Hes].
  destruct (getSortedPostsData P w) as [out [posts|e]] eqn:Hsorted; simpl in Hes; subst out.
  - apply getSortedPostsData_Ok in Hsorted as (fileNames & Hdir & Hreads & _ & Hposts).
    assert (∀ f, f ∈ md_files fileNames →
              ∃ text, readFileSync w (path_join (contentDir w) f) = Ok text) as Hreads'.
    { intros f Hf. apply getPostData_settles, Hreads, Hf. }
    assert (∀ feed' fileNames',
              readdirSync w (contentDir w) = Ok fileNames' →
              Array_sort P (by_date P) (omap (entry P w) (md_files fileNames')) = Ok feed' →
              feed' = posts) as Hsame.
    { intros feed' fileNames' Hdir' Hfeed'. rewrite Hdir in Hdir'. injection Hdir' as <-.
      congruence. }
    cbv zeta. destruct (JSON_stringify posts) as [[]|e] eqn:Hjson; simpl.
    + destruct (writeFileSync w (targetFile w)) as [[]|e]; simpl.
      * rewrite app_assoc, omap_app, no_feed_in_logs. simpl. split.
        -- intros [= <-]. eauto 8.
        -- intros (fileNames' & Hdir' & _ & Hfeed' & _). f_equal. symmetry. eauto.
      * rewrite no_feed_in_logs. simpl. split; [done|]. by intros (? & _ & _ & _ & _ & ?).
    + rewrite no_feed_in_logs. simpl. split; [done|].
      intros (fileNames' & Hdir' & _ & Hfeed' & Hjson' & _).
      rewrite (Hsame _ _ Hdir' Hfeed') in Hjson'. congruence.
  - pose proof (no_feed_in_logs es []) as Hnone. rewrite app_nil_r in Hnone.
    simpl. rewrite Hnone. simpl. split; [done|].
    intros (fileNames & Hdir & Hreads & Hposts & _). exfalso.
    assert (∃ out posts, getSortedPostsData P w = (out, Ok posts)) as (? & ? & ?);
      [|congruence].
    do 2 eexists. apply getSortedPostsData_Ok. exists fileNames. split_and!; try done.
    intros f Hf. apply getPostData_settles, Hreads, Hf.
Qed.

End Run.

(* ===================================================================== *)
(** ** The sort of V8 keeps what is expected of it                        *)
(* ===================================================================== *)

Lemma StronglySorted_lookup {A} (R : relation A) (l : list A) i j x y :
  StronglySorted R l → (i < j)%nat → l !! i = Some x → l !! j = Some y → R x y.
Proof.
  intros Hl. revert i j. induction Hl as [|z l Hl IH Hz]; intros i j Hij Hi Hj; [done|].
  destruct j as [|j]; [lia|]. destruct i as [|i]; simpl in *.
  - simplify_eq. rewrite Forall_forall in Hz. eapply Hz, list_elem_of_lookup_2, Hj.
  - eapply (IH i j); [lia|done..].
Qed.

Module V8_facts.
Section ArraySort.

Context {A : Type} (comparefn : A → A → result Z).

Lemma run_after_app isDescending previousElement rest run remaining :
  V8.run_after comparefn isDescending previousElement rest = Ok (run, remaining) →
  rest = run ++ remaining.
Proof.
  revert previousElement run. induction rest as [|cur rest IH]; intros prev run; simpl.
  - by intros [= <- <-].
  - destruct (comparefn cur prev) as [order|e]; simpl; [|done].
    destruct (if isDescending then _ else _); [by intros [= <- <-]|].
    destruct (V8.run_after _ _ _ _) as [[run' rem']|e] eqn:Hrun; simpl; [|done].
    intros [= <- <-]. simpl. f_equal. by eapply IH.
Qed.

Lemma CountAndMakeRun_perm l run rest :
  V8.CountAndMakeRun comparefn l = Ok (run, rest) → run ++ rest ≡ₚ l.
Proof.
  destruct l as [|x0 [|x1 l]]; simpl; try by intros [= <- <-]; rewrite app_nil_r.
  destruct (comparefn x1 x0) as [order|e]; simpl; [|done].
  destruct (V8.run_after _ _ _ _) as [[run' rem']|e] eqn:Hrun; simpl; [|done].
  intros [= <- <-].
  apply run_after_app in Hrun as ->.
  destruct (bool_decide _); [by rewrite reverse_Permutation|done].
Qed.

Lemma insert_pivot_perm sorted pivot sorted' :
  V8.insert_pivot comparefn sorted pivot = Ok sorted' → sorted' ≡ₚ pivot :: sorted.
Proof.
  unfold V8.insert_pivot. destruct (V8.search _ _ _ _ _ _) as [place|e]; simpl; [|done].
  intros [= <-]. rewrite <-Permutation_middle.
  by rewrite take_drop.
Qed.

Lemma BinaryInsertionSort_perm run rest sorted :
  V8.BinaryInsertionSort comparefn run rest = Ok sorted → sorted ≡ₚ run ++ rest.
Proof.
  revert run.
  induction rest as [|x rest IH]; intros run; simpl; [intros [= <-]; by rewrite app_nil_r|].
  destruct (V8.insert_pivot comparefn run x) as [run'|e] eqn:Hrun'; simpl; [|done].
  intros Hsorted. rewrite (IH _ Hsorted), (insert_pivot_perm _ _ _ Hrun').
  by rewrite <-Permutation_middle.
Qed.

Lemma sort_perm l sorted : V8.sort comparefn l = Ok sorted → sorted ≡ₚ l.
Proof.
  unfold V8.sort. destruct (V8.CountAndMakeRun comparefn l) as [[run rest]|e] eqn:Hrun;
    simpl; [|done].
  intros Hsorted. rewrite (BinaryInsertionSort_perm _ _ _ Hsorted).
  by apply CountAndMakeRun_perm.
Qed.

(** *** What the sort throws *)

Lemma run_after_throws isDescending previousElement rest e :
  V8.run_after comparefn isDescending previousElement rest = Throw e →
  ∃ a b, [a; b] ⊆+ previousElement :: rest ∧ comparefn a b = Throw e.
Proof.
  revert previousElement. induction rest as [|cur rest IH]; intros prev; simpl; [done|].
  destruct (comparefn cur prev) as [order|e'] eqn:Horder; simpl.
  - destruct (if isDescending then _ else _); [done|].
    destruct (V8.run_after _ _ _ _) as [[run' rem']|e'] eqn:Hrun; simpl; [done|].
    intros [= ->]. destruct (IH _ Hrun) as (a & b & Hab & Hthrow).
    exists a, b. split; [by apply submseteq_cons|done].
  - intros [= ->]. exists cur, prev. split; [|done].
    etrans; [|apply submseteq_swap]. do 2 apply submseteq_skip. apply submseteq_nil_l.
Qed.

Lemma CountAndMakeRun_throws l e :
  V8.CountAndMakeRun comparefn l = Throw e →
  ∃ a b, [a; b] ⊆+ l ∧ comparefn a b = Throw e.
Proof.
  destruct l as [|x0 [|x1 l]]; simpl; try done.
  destruct (comparefn x1 x0) as [order|e'] eqn:Horder; simpl.
  - destruct (V8.run_after _ _ _ _) as [[run' rem']|e'] eqn:Hrun; simpl; [done|].
    intros [= ->]. destruct (run_after_throws _ _ _ _ Hrun) as (a & b & Hab & Hthrow).
    exists a, b. split; [by apply submseteq_cons|done].
  - intros [= ->]. exists x1, x0. split; [|done].
    etrans; [|apply submseteq_swap]. do 2 apply submseteq_skip. apply submseteq_nil_l.
Qed.

Lemma search_throws fuel pivot sorted left right e :
  V8.search comparefn fuel pivot sorted left right = Throw e →
  ∃ x, x ∈ sorted ∧ comparefn pivot x = Throw e.
Proof.
  revert left right. induction fuel as [|fuel IH]; intros left right;
    cbn [V8.search]; cbv zeta; [done|].
  case_bool_decide; [|done].
  destruct (sorted !! _) as [x|] eqn:Hx; [|done].
  destruct (comparefn pivot x) as [order|e'] eqn:Horder; simpl.
  - case_bool_decide; apply IH.
  - intros [= ->]. exists x. split; [|done]. eapply list_elem_of_lookup_2, Hx.
Qed.

Lemma insert_pivot_throws sorted pivot e :
  V8.insert_pivot comparefn sorted pivot = Throw e →
  ∃ x, x ∈ sorted ∧ comparefn pivot x = Throw e.
Proof.
  unfold V8.insert_pivot.
  destruct (V8.search _ _ _ _ _ _) as [place|e'] eqn:Hplace; simpl; [done|].
  intros [= ->]. by eapply search_throws.
Qed.

Lemma BinaryInsertionSort_throws run rest e :
  V8.BinaryInsertionSort comparefn run rest = Throw e →
  ∃ a b, [a; b] ⊆+ rest ++ run ∧ comparefn a b = Throw e.
Proof.
  revert run. induction rest as [|pivot rest IH]; intros run; simpl; [done|].
  destruct (V8.insert_pivot comparefn run pivot) as [run'|e'] eqn:Hrun'; simpl.
  - intros Hthrow. destruct (IH _ Hthrow) as (a & b & Hab & Hthrows).
    exists a, b. split; [|done].
    rewrite (insert_pivot_perm _ _ _ Hrun') in Hab.
    by rewrite <-Permutation_middle in Hab.
  - intros [= ->]. destruct (insert_pivot_throws _ _ _ Hrun') as (x & Hx & Hthrows).
    exists pivot, x. split; [|done].
    apply submseteq_skip. apply singleton_submseteq_l, elem_of_app. by right.
Qed.

Lemma sort_throws l e :
  V8.sort comparefn l = Throw e → ∃ a b, [a; b] ⊆+ l ∧ comparefn a b = Throw e.
Proof.
  unfold V8.sort.
  destruct (V8.CountAndMakeRun comparefn l) as [[run rest]|e'] eqn:Hrun; simpl.
  - intros Hthrow. destruct (BinaryInsertionSort_throws _ _ _ Hthrow) as (a & b & Hab & Hthrows).
    exists a, b. split; [|done].
    by rewrite (comm (++)), (CountAndMakeRun_perm _ _ _ Hrun) in Hab.
  - intros [= ->]. by apply CountAndMakeRun_throws.
Qed.

(** The order of the result, for answers backed by [R] on the elements
    that satisfy [D]. *)
Context (R : relation A) `{!Transitive R} (D : A → Prop).
Context (backed : ∀ a b order, D a → D b → comparefn a b = Ok order →
           (order < 0 → R a b) ∧ (0 ≤ order → R b a)).

Lemma run_after_ascending previousElement rest run remaining :
  D previousElement → Forall D rest →
  V8.run_after comparefn false previousElement rest = Ok (run, remaining) →
  Sorted R (previousElement :: run).
Proof.
  revert previousElement run. induction rest as [|cur rest IH]; intros prev run Hprev Hrest; simpl.
  - intros [= <- <-]. by repeat constructor.
  - apply Forall_cons in Hrest as [Hcur Hrest].
    destruct (comparefn cur prev) as [order|e] eqn:Hanswer; simpl; [|done].
    case_bool_decide as Horder; [intros [= <- <-]; by repeat constructor|].
    destruct (V8.run_after _ _ _ _) as [[run' rem']|e] eqn:Hrun; simpl; [|done].
    intros [= <- <-].
    constructor; [by eapply IH|]. constructor.
    apply (backed cur prev order); [done..|lia].
Qed.

Lemma run_after_descending previousElement rest run remaining :
  D previousElement → Forall D rest →
  V8.run_after comparefn true previousElement rest = Ok (run, remaining) →
  Sorted (flip R) (previousElement :: run).
Proof.
  revert previousElement run. induction rest as [|cur rest IH]; intros prev run Hprev Hrest; simpl.
  - intros [= <- <-]. by repeat constructor.
  - apply Forall_cons in Hrest as [Hcur Hrest].
    destruct (comparefn cur prev) as [order|e] eqn:Hanswer; simpl; [|done].
    case_bool_decide as Horder; [intros [= <- <-]; by repeat constructor|].
    destruct (V8.run_after _ _ _ _) as [[run' rem']|e] eqn:Hrun; simpl; [|done].
    intros [= <- <-].
    constructor; [by eapply IH|]. constructor.
    apply (backed cur prev order); [done..|lia].
Qed.

Lemma CountAndMakeRun_sorted l run rest :
  Forall D l → V8.CountAndMakeRun comparefn l = Ok (run, rest) → StronglySorted R run.
Proof.
  intros Hl. destruct l as [|x0 [|x1 l]]; simpl;
    try (intros [= <- <-]; by repeat constructor).
  apply Forall_cons in Hl as [H0 Hl]. apply Forall_cons in Hl as [H1 Hl].
  destruct (comparefn x1 x0) as [order|e] eqn:Hanswer; simpl; [|done].
  destruct (V8.run_after _ _ _ _) as [[run' rem']|e] eqn:Hrun; simpl; [|done].
  intros [= <- <-].
  apply Sorted_StronglySorted; [done|].
  case_bool_decide as Horder.
  - apply (Sorted_reverse (flip R)). constructor.
    + by eapply run_after_descending.
    + constructor. by apply (backed x1 x0 order).
  - constructor.
    + by eapply run_after_ascending.
    + constructor. apply (backed x1 x0 order); [done..|lia].
Qed.

Lemma search_spec fuel pivot sorted left right place :
  StronglySorted R sorted → Forall D sorted → D pivot →
  (left ≤ right ≤ length sorted)%nat → (right - left ≤ fuel)%nat →
  (∀ j x, (j < left)%nat → sorted !! j = Some x → R x pivot) →
  (∀ j x, (right ≤ j)%nat → sorted !! j = Some x → R pivot x) →
  V8.search comparefn fuel pivot sorted left right = Ok place →
  (place ≤ length sorted)%nat
  ∧ (∀ j x, (j < place)%nat → sorted !! j = Some x → R x pivot)
  ∧ (∀ j x, (place ≤ j)%nat → sorted !! j = Some x → R pivot x).
Proof.
  intros Hsorted HD Hpivot. revert left right.
  induction fuel as [|fuel IH]; intros left right Hlr Hfuel Hbelow Habove;
    cbn [V8.search]; cbv zeta.
  { intros [= <-]. assert (left = right) as -> by lia. split_and!; [lia|done..]. }
  case_bool_decide as Hlt;
    [|intros [= <-]; assert (left = right) as -> by lia; split_and!; [lia|done..]].
  set (mid := (left + (right - left) / 2)%nat).
  assert (left ≤ mid < right)%nat as Hmid.
  { subst mid. split; [lia|]. pose proof (Nat.div_lt (right - left) 2). lia. }
  clearbody mid.
  destruct (sorted !! mid) as [x|] eqn:Hx; [|apply lookup_ge_None in Hx; lia].
  assert (D x) as Hdx.
  { rewrite Forall_forall in HD. eapply HD, list_elem_of_lookup_2, Hx. }
  destruct (comparefn pivot x) as [order|e] eqn:Hanswer; simpl; [|done].
  destruct (backed pivot x order Hpivot Hdx Hanswer) as [Hneg Hpos].
  case_bool_decide as Horder.
  - apply IH; [lia|lia|done|].
    intros j y Hj Hy. destruct (decide (j = mid)) as [->|]; [by simplify_eq; auto|].
    transitivity x; [auto|]. eapply (StronglySorted_lookup R sorted mid j); [done|lia|done..].
  - apply IH; [lia|lia| |done].
    intros j y Hj Hy. destruct (decide (j = mid)) as [->|]; [simplify_eq; apply Hpos; lia|].
    transitivity x; [|apply Hpos; lia].
    eapply (StronglySorted_lookup R sorted j mid); [done|lia|done..].
Qed.

Lemma insert_pivot_sorted sorted pivot sorted' :
  StronglySorted R sorted → Forall D sorted → D pivot →
  V8.insert_pivot comparefn sorted pivot = Ok sorted' →
  StronglySorted R sorted'.
Proof.
  intros Hsorted HD Hpivot. unfold V8.insert_pivot.
  destruct (V8.search _ _ _ _ _ _) as [i|e] eqn:Hplace; simpl; [|done].
  intros [= <-].
  destruct (search_spec (length sorted) pivot sorted 0 (length sorted) i)
    as (Hi & Hbelow & Habove); [done|done|done|lia|lia|lia| |done|].
  { intros j x Hj Hx. apply lookup_lt_Some in Hx. lia. }
  rewrite <-(take_drop i sorted) in Hsorted.
  apply StronglySorted_app in Hsorted as (Hcross & Htake & Hdrop).
  apply StronglySorted_app_2; [|done|].
  - intros x y Hx [->|Hy]%elem_of_cons; [|by apply Hcross].
    apply list_elem_of_lookup in Hx as [j Hj].
    apply lookup_take_Some in Hj as [Hj ?]. by eapply Hbelow.
  - constructor; [done|]. apply Forall_forall. intros y Hy.
    apply list_elem_of_lookup in Hy as [j Hj]. rewrite lookup_drop in Hj.
    eapply Habove; [|done]. lia.
Qed.

Lemma BinaryInsertionSort_sorted run rest sorted :
  StronglySorted R run → Forall D run → Forall D rest →
  V8.BinaryInsertionSort comparefn run rest = Ok sorted →
  StronglySorted R sorted.
Proof.
  revert run.
  induction rest as [|x rest IH]; intros run Hrun HDrun HDrest; simpl;
    [by intros [= <-]|].
  apply Forall_cons in HDrest as [Hx HDrest].
  destruct (V8.insert_pivot comparefn run x) as [run'|e] eqn:Hrun'; simpl; [|done].
  apply IH; [by eapply insert_pivot_sorted| |done].
  rewrite (insert_pivot_perm _ _ _ Hrun'). by constructor.
Qed.

Lemma sort_sorted l sorted :
  Forall D l → V8.sort comparefn l = Ok sorted → StronglySorted R sorted.
Proof.
  intros Hl. unfold V8.sort.
  destruct (V8.CountAndMakeRun comparefn l) as [[run rest]|e] eqn:Hrun; simpl; [|done].
  pose proof (CountAndMakeRun_perm _ _ _ Hrun) as Hperm.
  rewrite <-Hperm in Hl. apply Forall_app in Hl as [? ?].
  apply BinaryInsertionSort_sorted; [|done..].
  eapply CountAndMakeRun_sorted; [|done]. rewrite <-Hperm. by apply Forall_app.
Qed.

End ArraySort.
End V8_facts.

(** The example platform keeps what is expected of the sort. *)
Lemma Node_sort_permutes (headers : list (jsstring * option obj)) : sort_permutes (Node.platform headers).
Proof.
  intros comparefn posts.
  destruct (Array_sort (Node.platform headers) comparefn posts) as [sorted|e] eqn:Hsorted.
  - by apply (V8_facts.sort_perm comparefn).
  - by apply V8_facts.sort_throws.
Qed.

Lemma Node_sort_follows_answers (headers : list (jsstring * option obj)) : sort_follows_answers (Node.platform headers).
Proof.
  intros comparefn R posts sorted HR Hbacked Hsorted. apply StronglySorted_Sorted.
  apply (V8_facts.sort_sorted comparefn R (λ a, a ∈ posts)) with (l := posts);
    [|by apply Forall_forall|done].
  intros a b order Ha Hb Hanswer.
  destruct (Hbacked a b order Ha Hb Hanswer) as (Hneg & Hpos & Hzero).
  split; [done|]. intros Hge.
  destruct (decide (order = 0)) as [Hz|Hnz]; [by apply Hzero|apply Hpos; lia].
Qed.

(** *** What follows for any sort that keeps them *)

Lemma sorted_permutes (P : Platform) (comparefn : obj → obj → result Z)
    (posts sorted : list obj) :
  sort_permutes P → Array_sort P comparefn posts = Ok sorted → sorted ≡ₚ posts.
Proof. intros Hsort Hsorted. specialize (Hsort comparefn posts). by rewrite Hsorted in Hsort. Qed.

Lemma sort_thrown (P : Platform) (comparefn : obj → obj → result Z)
    (posts : list obj) e :
  sort_permutes P → Array_sort P comparefn posts = Throw e →
  ∃ a b, [a; b] ⊆+ posts ∧ comparefn a b = Throw e.
Proof. intros Hsort Hsorted. specialize (Hsort comparefn posts). by rewrite Hsorted in Hsort. Qed.

(** An array of fewer than two elements is returned as it is. *)
Lemma sort_short (P : Platform) (comparefn : obj → obj → result Z)
    (posts : list obj) :
  sort_permutes P → (length posts < 2)%nat → Array_sort P comparefn posts = Ok posts.
Proof.
  intros Hsort Hshort. specialize (Hsort comparefn posts).
  destruct (Array_sort P comparefn posts) as [sorted|e].
  - f_equal. destruct posts as [|p [|q posts]]; simpl in Hshort; [| |lia].
    + by apply Permutation_nil_r.
    + by apply Permutation_singleton_r.
  - destruct Hsort as (a & b & Hab%submseteq_length & _). simpl in Hab. lia.
Qed.

(** The sort completes when every comparison of two of its elements
    does. *)
Lemma sort_completes (P : Platform) (comparefn : obj → obj → result Z)
    (posts : list obj) :
  sort_permutes P →
  (∀ a b, a ∈ posts → b ∈ posts → ∃ order, comparefn a b = Ok order) →
  ∃ sorted, Array_sort P comparefn posts = Ok sorted.
Proof.
  intros Hsort Hcompletes.
  destruct (Array_sort P comparefn posts) as [sorted|e] eqn:Hsorted; [eauto|].
  destruct (sort_thrown _ _ _ _ Hsort Hsorted) as (a & b & Hab & Hthrows).
  destruct (Hcompletes a b) as [order Horder]; [..|congruence].
  - eapply elem_of_submseteq; [|done]. by left.
  - eapply elem_of_submseteq; [|done]. right. by left.
Qed.

(* ===================================================================== *)
(** ** The posts of the feed                                              *)
(* ===================================================================== *)

Section Posts.

Context (P : Platform) (w : World).

(** *** The fields of a post *)

Lemma post_record_slug f h html ex tags date :
  get (post_record f h html ex tags date) (js "slug") = JStr f.
Proof.
  unfold get, post_record.
  rewrite !lookup_insert_ne by key_ne. by rewrite lookup_insert_eq.
Qed.

Lemma post_record_date f h html ex tags date :
  get (post_record f h html ex tags date) (js "date") = date.
Proof. unfold get, post_record. by rewrite lookup_insert_eq. Qed.

Lemma post_record_tags f h html ex tags date :
  get (post_record f h html ex tags date) (js "tags") = tags.
Proof.
  unfold get, post_record.
  rewrite lookup_insert_ne by key_ne. by rewrite lookup_insert_eq.
Qed.

Lemma post_record_contentHtml f h html ex tags date :
  post_record f h html ex tags date !! js "contentHtml" = Some (JStr html).
Proof.
  unfold post_record.
  rewrite !lookup_insert_ne by key_ne. by rewrite lookup_insert_eq.
Qed.

Lemma post_record_excerptHtml f h html ex tags date :
  post_record f h html ex tags date !! js "excerptHtml" = Some (JStr ex).
Proof.
  unfold post_record.
  rewrite !lookup_insert_ne by key_ne. by rewrite lookup_insert_eq.
Qed.

(** Every other key of the header is carried over as it is. *)
Lemma post_record_spread f h html ex tags date k :
  k ∉ set_by_literal → post_record f h html ex tags date !! k = h !! k.
Proof.
  unfold set_by_literal. rewrite !not_elem_of_cons. intros (? & ? & ? & ? & ? & _).
  unfold post_record. by rewrite !lookup_insert_ne.
Qed.

Lemma post_record_published f h html ex tags date :
  get (post_record f h html ex tags date) (js "published") = get h (js "published").
Proof.
  unfold get. rewrite post_record_spread; [done|].
  unfold set_by_literal. rewrite !not_elem_of_cons. split_and!; try key_ne.
  apply not_elem_of_nil.
Qed.

(** *** The entries *)

Lemma entry_Some f p :
  entry P w f = Some p ↔
  Ingested P w (file_arg w f) p ∧ truthy (get p (js "published")) = true.
Proof.
  unfold entry. split.
  - destruct (getPostData P w (file_arg w f)) as [out [[q|]|e]] eqn:Hq; simpl; try done.
    destruct (truthy (get q (js "published"))) eqn:Hpub; [|done].
    intros [= <-]. by apply getPostData_Some in Hq as [_ ?].
  - intros [Hi Hpub]. rewrite (getPostData_ingested _ _ _ _ Hi). simpl. by rewrite Hpub.
Qed.

Lemma entry_slug f p : entry P w f = Some p → get p (js "slug") = JStr f.
Proof.
  intros [[? ? ? ? ? _ _ _ _ _ ->] _]%entry_Some. apply post_record_slug.
Qed.

Lemma entry_has_slug f g p : entry P w g = Some p → has_slug f p = bool_decide (g = f).
Proof. intros Hp. unfold has_slug. by rewrite (entry_slug _ _ Hp). Qed.

(** Among the entries of distinct names, the posts with the slug [f]. *)
Lemma entries_with_slug (fs : list jsstring) f :
  NoDup fs →
  filter (λ p, has_slug f p = true) (omap (entry P w) fs)
  = if decide (f ∈ fs) then option_list (entry P w f) else [].
Proof.
  induction 1 as [|g fs Hg Hfs IH]; [done|]. csimpl.
  destruct (entry P w g) as [p|] eqn:Hp.
  - rewrite filter_cons, (entry_has_slug f g p Hp), IH.
    destruct (decide (g = f)) as [->|Hne].
    + rewrite bool_decide_eq_true_2 by done. rewrite decide_True by done.
      rewrite decide_False by done. rewrite decide_True by (by left).
      by rewrite Hp.
    + rewrite bool_decide_eq_false_2 by done. rewrite decide_False by done.
      destruct (decide (f ∈ fs)) as [Hin|Hnin].
      * by rewrite decide_True by (by right).
      * rewrite decide_False; [done|]. rewrite not_elem_of_cons. by split.
  - rewrite IH. destruct (decide (g = f)) as [->|Hne].
    + rewrite decide_False by done. rewrite decide_True by (by left). by rewrite Hp.
    + destruct (decide (f ∈ fs)) as [Hin|Hnin].
      * by rewrite decide_True by (by right).
      * rewrite decide_False; [done|]. rewrite not_elem_of_cons. by split.
Qed.

Lemma entries_slugs (fs : list jsstring) :
  NoDup fs → NoDup ((λ p, get p (js "slug")) <$> omap (entry P w) fs).
Proof.
  induction 1 as [|g fs Hg Hfs IH]; [constructor|]. csimpl.
  destruct (entry P w g) as [p|] eqn:Hp; [|done]. csimpl.
  constructor; [|done]. rewrite (entry_slug _ _ Hp).
  intros (q & Hq & (g' & Hg' & Hq')%list_elem_of_omap)%list_elem_of_fmap.
  rewrite (entry_slug _ _ Hq') in Hq. by simplify_eq.
Qed.

(** The posts of the feed are the entries of the [.md] files. *)
Lemma feed_entries feed :
  sort_permutes P → feed_of (markdownToJson P w) = Some feed →
  ∃ fileNames,
    readdirSync w (contentDir w) = Ok fileNames
    ∧ feed ≡ₚ omap (entry P w) (md_files fileNames).
Proof.
  intros Hsort (fileNames & Hdir & _ & Hsorted & _)%feed_of_markdownToJson.
  exists fileNames. split; [done|]. by eapply sorted_permutes.
Qed.

Lemma elem_of_feed feed p :
  sort_permutes P → feed_of (markdownToJson P w) = Some feed → p ∈ feed →
  ∃ fileNames f,
    readdirSync w (contentDir w) = Ok fileNames
    ∧ f ∈ md_files fileNames ∧ entry P w f = Some p.
Proof.
  intros Hsort Hfeed Hp. destruct (feed_entries feed Hsort Hfeed) as (fileNames & Hdir & Hperm).
  rewrite Hperm in Hp. apply list_elem_of_omap in Hp as (f & Hf & Hentry). eauto.
Qed.

End Posts.

(* ===================================================================== *)
(** ** The claims of the specification                                    *)
(* ===================================================================== *)

Lemma split_tags_splittable tags :
  tags_splittable tags = true → ∃ l, split_tags tags = Ok l.
Proof. destruct tags; simpl; try done; eauto. Qed.

(** *** C1: one entry per published file *)

(** Claim C1, as amended.  When [sort] permutes, the names of the content
    directory are distinct and the build leaves a feed, every [.md] file
    whose header is loaded, whose body is rendered and cut, whose tags are
    absent or one string and whose header says [published: true] has
    exactly one entry in the feed, the one with its file name as slug; and
    no two entries of the feed have the same slug. *)
Theorem C1_one_entry_per_published_file
    (P : Platform) (w : World) (fileNames : list jsstring) (feed : list obj)
    (f text : jsstring) (yamlHeader : obj) (contentHtml excerpt : jsstring) :
  sort_permutes P →
  readdirSync w (contentDir w) = Ok fileNames →
  NoDup fileNames →
  feed_of (markdownToJson P w) = Some feed →
  f ∈ fileNames →
  endsWith f (js ".md") = true →
  readFileSync w (path_join (contentDir w) f) = Ok text →
  loadFront P text = Ok yamlHeader →
  Marked_parse P (get yamlHeader (js "__content")) = Ok contentHtml →
  excerptHtml P contentHtml 250 = Ok excerpt →
  tags_splittable (get yamlHeader (js "tags")) = true →
  get yamlHeader (js "published") = JBool true →
  length (filter (λ p, has_slug f p = true) feed) = 1%nat
  ∧ NoDup ((λ p, get p (js "slug")) <$> feed).
Proof.
  intros Hsort Hdir Hnames Hfeed Hf Hmd Hread Hfront Hhtml Hex Htags Hpub.
  destruct (feed_entries P w feed Hsort Hfeed) as (fileNames' & Hdir' & Hperm).
  rewrite Hdir in Hdir'. injection Hdir' as <-.
  assert (NoDup (md_files fileNames)) as Hmds by by apply NoDup_filter.
  rewrite Hperm. split; [|by apply entries_slugs].
  rewrite entries_with_slug by done.
  rewrite decide_True by (by apply list_elem_of_filter).
  destruct (split_tags_splittable _ Htags) as [tags Hsplit].
  assert (entry P w f = Some
            (post_record f yamlHeader contentHtml excerpt tags
               (resolved_date P f yamlHeader))) as ->; [|done].
  apply entry_Some. split; [by econstructor|].
  by rewrite post_record_published, Hpub.
Qed.

(** *** C2: nothing unpublished in the feed *)

(** Claim C2, as amended.  When [sort] permutes and the build leaves a
    feed: a file whose header has [published] false, absent or otherwise
    falsy has no entry with its slug in the feed; and the [published] of
    every post in the feed is truthy, so [true] when it is a Boolean. *)
Theorem C2_feed_holds_no_unpublished_post
    (P : Platform) (w : World) (feed : list obj) :
  sort_permutes P →
  feed_of (markdownToJson P w) = Some feed →
  (∀ f text yamlHeader,
     readFileSync w (path_join (contentDir w) f) = Ok text →
     loadFront P text = Ok yamlHeader →
     truthy (get yamlHeader (js "published")) = false →
     ∀ p, p ∈ feed → has_slug f p = false)
  ∧ (∀ p, p ∈ feed →
       truthy (get p (js "published")) = true
       ∧ ∀ b, get p (js "published") = JBool b → b = true).
Proof.
  intros Hsort Hfeed. split.
  - intros f text h Hread Hfront Hoff p Hp.
    destruct (elem_of_feed P w feed p Hsort Hfeed Hp) as (fileNames & g & _ & _ & Hentry).
    rewrite (entry_has_slug P w f g p Hentry).
    apply bool_decide_eq_false_2. intros ->.
    apply entry_Some in Hentry as [[text' h' ? ? ? Hread' Hfront' _ _ _ ->] Hpub].
    simpl in Hread'. rewrite Hread in Hread'. injection Hread' as <-.
    rewrite Hfront in Hfront'. injection Hfront' as <-.
    rewrite post_record_published in Hpub. congruence.
  - intros p Hp.
    destruct (elem_of_feed P w feed p Hsort Hfeed Hp) as (fileNames & g & _ & _ & Hentry).
    apply entry_Some in Hentry as [_ Hpub]. split; [done|].
    intros b Hb. by rewrite Hb in Hpub.
Qed.

(** C1 at the post of the repository, beside a draft and a file that is no
    markdown. *)
Lemma C1_witness :
  readdirSync C1_examples.blog (contentDir C1_examples.blog)
    = Ok [js "2018-09-27-profiling-with-php.md"; js "2019-08-21-rethink-loops.md";
          js "notes.txt"]
  ∧ feed_of (markdownToJson Examples.node C1_examples.blog)
    = Some [Examples.loops_post (js "2019-08-21-rethink-loops.md")
              (JNum (Num 1566345600000))]
  ∧ get Examples.loops_header (js "published") = JBool true
  ∧ length (filter (λ p, has_slug (js "2019-08-21-rethink-loops.md") p = true)
              [Examples.loops_post (js "2019-08-21-rethink-loops.md")
                 (JNum (Num 1566345600000))]) = 1%nat
  ∧ NoDup ((λ p, get p (js "slug")) <$>
             [Examples.loops_post (js "2019-08-21-rethink-loops.md")
                (JNum (Num 1566345600000))]).
Proof.
  split; [by_running|]. split; [by_running|]. split; [by_running|].
  apply (C1_one_entry_per_published_file Examples.node C1_examples.blog
           [js "2018-09-27-profiling-with-php.md"; js "2019-08-21-rethink-loops.md";
            js "notes.txt"] _
           (js "2019-08-21-rethink-loops.md") Examples.loops_text Examples.loops_header
           (js "<p>I want to start right away with the little problem statement</p>"
              ++ [10%N])
           (js "I want to start right away with the little problem statement")).
  - apply Node_sort_permutes.
  - by_running.
  - apply (bool_decide_unpack _). vm_compute. exact I.
  - by_running.
  - apply (bool_decide_unpack _). vm_compute. exact I.
  - by_running.
  - by_running.
  - by_running.
  - by_running.
  - by_running.
  - by_running.
  - by_running.
Defined.

(** Claim C1 as the specification states it fails: the header below is
    well formed and says [published: true], but its tags are a YAML
    sequence; [split] is not a function of an array, the [catch] block
    logs the TypeError, and the feed has no entry for the file. *)
Lemma C1_counterexample :
  readdirSync C1_examples.blog_with_sequence (contentDir C1_examples.blog_with_sequence)
    = Ok [js "2019-09-01-traits.md"]
  ∧ endsWith (js "2019-09-01-traits.md") (js ".md") = true
  ∧ readFileSync C1_examples.blog_with_sequence
      (path_join (contentDir C1_examples.blog_with_sequence) (js "2019-09-01-traits.md"))
    = Ok Examples.traits_text
  ∧ loadFront Examples.node Examples.traits_text = Ok Examples.traits_header
  ∧ get Examples.traits_header (js "published") = JBool true
  ∧ get Examples.traits_header (js "tags") = JArr [JStr (js "rust"); JStr (js "beginners")]
  ∧ markdownToJson Examples.node C1_examples.blog_with_sequence
    = ([Logged_exception (TypeError "yamlHeader.tags?.split is not a function");
        Written (targetFile C1_examples.blog_with_sequence) []], Ok ())
  ∧ feed_of (markdownToJson Examples.node C1_examples.blog_with_sequence) = Some [].
Proof. repeat split; by_running. Qed.

(** C2 at a directory with a published post, a draft and a post without
    the key: the feed holds the published post alone. *)
Lemma C2_witness :
  feed_of (markdownToJson Examples.node C2_examples.blog)
    = Some [Examples.loops_post (js "2019-08-21-rethink-loops.md")
              (JNum (Num 1566345600000))]
  ∧ (∀ f text yamlHeader,
       readFileSync C2_examples.blog (path_join (contentDir C2_examples.blog) f) = Ok text →
       loadFront Examples.node text = Ok yamlHeader →
       truthy (get yamlHeader (js "published")) = false →
       ∀ p, p ∈ [Examples.loops_post (js "2019-08-21-rethink-loops.md")
                   (JNum (Num 1566345600000))] →
            has_slug f p = false)
  ∧ (∀ p, p ∈ [Examples.loops_post (js "2019-08-21-rethink-loops.md")
                 (JNum (Num 1566345600000))] →
       truthy (get p (js "published")) = true
       ∧ ∀ b, get p (js "published") = JBool b → b = true).
Proof.
  split; [by_running|].
  apply (C2_feed_holds_no_unpublished_post Examples.node C2_examples.blog).
  - apply Node_sort_permutes.
  - by_running.
Defined.

(** Claim C2 as the specification states it fails in its second half: the
    filter keeps every truthy [published], so the post below, whose header
    says [published: 'no'], is in the feed, with a [published] that is not
    [true]. *)
Lemma C2_counterexample :
  loadFront Examples.node Examples.quoted_text = Ok Examples.quoted_header
  ∧ get Examples.quoted_header (js "published") = JStr (js "no")
  ∧ feed_of (markdownToJson Examples.node C2_examples.blog_with_quoted_flag)
    = Some [C2_examples.quoted_post]
  ∧ get C2_examples.quoted_post (js "published") = JStr (js "no")
  ∧ get C2_examples.quoted_post (js "published") ≠ JBool true.
Proof.
  split_and!; try (by_running).
  intros H. vm_compute in H. discriminate H.
Qed.

(** *** C3: the order of the feed *)

Global Instance not_earlier_transitive : Transitive not_earlier.
Proof.
  intros p q r (x & y & Hp & Hq & Hxy) (y' & z & Hq' & Hr & Hyz).
  exists x, z. split_and!; [done..|]. rewrite Hq in Hq'. simplify_eq. lia.
Qed.

Lemma by_date_backed (P : Platform) (posts : list obj) :
  (∀ p, p ∈ posts → has_time_value (get p (js "date")) = true) →
  backed_by (by_date P) not_earlier posts.
Proof.
  intros Htimes a b order Ha Hb. apply Htimes in Ha, Hb.
  unfold has_time_value in Ha, Hb. unfold by_date, js_lt, IsLessThan, not_earlier.
  destruct (to_number (get a (js "date"))) as [[|x]|]; try done.
  destruct (to_number (get b (js "date"))) as [[|y]|]; try done.
  simpl. case_bool_decide as Hlt; intros [= <-].
  - injection Hlt as Hlt%bool_decide_eq_true.
    split_and!; [lia| |lia]. intros _. exists y, x. split_and!; [done..|lia].
  - assert (¬ x < y) by (intros ?; apply Hlt; f_equal; by apply bool_decide_eq_true_2).
    split_and!; [|lia|lia]. intros _. exists x, y. split_and!; [done..|lia].
Qed.

Lemma Sorted_lookup_adjacent {A} (R : relation A) (l : list A) i x y :
  Sorted R l → l !! i = Some x → l !! S i = Some y → R x y.
Proof.
  intros Hl. revert i. induction Hl as [|z l Hl IH Hz]; intros i Hx Hy; [done|].
  destruct i as [|i]; simpl in *.
  - simplify_eq. destruct Hz as [|y' l' Hz]; simpl in *; by simplify_eq.
  - by eapply IH.
Qed.

(** Claim C3, as amended.  When [sort] permutes and places by the answers
    it gets, and the date of every post in the feed is a Date or a Number
    other than NaN, the feed is in descending order of date: [post[i].date
    >= post[i+1].date] for every [i]. *)
Theorem C3_feed_in_descending_order_of_date
    (P : Platform) (w : World) (feed : list obj) :
  sort_permutes P →
  sort_follows_answers P →
  feed_of (markdownToJson P w) = Some feed →
  (∀ p, p ∈ feed → has_time_value (get p (js "date")) = true) →
  ∀ i p q, feed !! i = Some p → feed !! S i = Some q →
    js_ge P (get p (js "date")) (get q (js "date")) = true.
Proof.
  intros Hperm Hsort Hfeed Htimes i p q Hp Hq.
  apply feed_of_markdownToJson in Hfeed as (fileNames & _ & _ & Hfeed & _).
  set (posts := omap (entry P w) (md_files fileNames)) in *.
  assert (Sorted not_earlier feed) as Hsorted.
  { eapply Hsort; [apply _| |done]. apply by_date_backed.
    intros r Hr. apply Htimes. by rewrite (sorted_permutes _ _ _ _ Hperm Hfeed). }
  destruct (Sorted_lookup_adjacent _ _ _ _ _ Hsorted Hp Hq) as (x & y & Hx & Hy & Hxy).
  unfold js_ge, IsLessThan. rewrite Hx, Hy.
  by rewrite bool_decide_eq_false_2 by lia.
Qed.

(** C3 at three dated posts. *)
Lemma C3_witness :
  feed_of (markdownToJson Examples.node C3_examples.blog) = Some C3_examples.feed
  ∧ ∀ i p q, C3_examples.feed !! i = Some p → C3_examples.feed !! S i = Some q →
      js_ge Examples.node (get p (js "date")) (get q (js "date")) = true.
Proof.
  split; [by_running|].
  apply (C3_feed_in_descending_order_of_date Examples.node C3_examples.blog).
  - apply Node_sort_permutes.
  - apply Node_sort_follows_answers.
  - by_running.
  - intros p Hp. unfold C3_examples.feed in Hp.
    rewrite !elem_of_cons, elem_of_nil in Hp.
    destruct Hp as [->|[->|[->|[]]]]; by_running.
Defined.

(** Claim C3 as the specification states it fails: the name [about.md]
    starts with no date, [Date.parse] gives NaN, the post is in the feed
    all the same, and no [>=] holds between NaN and a date, whichever way
    the directory is listed. *)
Lemma C3_counterexample :
  feed_of (markdownToJson Examples.node C3_examples.blog_with_page)
    = Some [Examples.loops_post (js "about.md") (JNum NaN);
            Examples.loops_post (js "2019-08-21-rethink-loops.md")
              (JNum (Num 1566345600000))]
  ∧ js_ge Examples.node
      (get (Examples.loops_post (js "about.md") (JNum NaN)) (js "date"))
      (get (Examples.loops_post (js "2019-08-21-rethink-loops.md")
              (JNum (Num 1566345600000))) (js "date")) = false
  ∧ feed_of (markdownToJson Examples.node C3_examples.blog_with_page_first)
    = Some [Examples.loops_post (js "2019-08-21-rethink-loops.md")
              (JNum (Num 1566345600000));
            Examples.loops_post (js "about.md") (JNum NaN)]
  ∧ js_ge Examples.node
      (get (Examples.loops_post (js "2019-08-21-rethink-loops.md")
              (JNum (Num 1566345600000))) (js "date"))
      (get (Examples.loops_post (js "about.md") (JNum NaN)) (js "date")) = false.
Proof. split_and!; by_running. Qed.

(** *** C4: posts of the same date *)

(** V8 reverses a pair as soon as the comparator answers a negative number
    for [(second, first)]. *)
Lemma V8_sort_reverses_a_pair {A} (comparefn : A → A → result Z) (first second : A) order :
  comparefn second first = Ok order → order < 0 →
  V8.sort comparefn [first; second] = Ok [second; first].
Proof.
  intros Hanswer Hneg. unfold V8.sort, V8.CountAndMakeRun. cbn [V8.run_after].
  rewrite Hanswer. simpl. by rewrite bool_decide_eq_true_2.
Qed.

Lemma string_lt_irreflexive (s : jsstring) : Node.string_lt s s = false.
Proof.
  induction s as [|c s IH]; [done|]. simpl.
  by rewrite N.ltb_irrefl, N.eqb_refl, IH.
Qed.

(** No date is less than itself, so [by_date] answers -1 for two posts of
    the same date, in either order, when the comparison completes. *)
Lemma by_date_same_date (headers : list (jsstring * option obj)) (a b : obj) order :
  get a (js "date") = get b (js "date") →
  by_date (Node.platform headers) a b = Ok order → order = -1.
Proof.
  intros Hdate. unfold by_date, js_lt, IsLessThan. rewrite Hdate.
  destruct (get b (js "date")) as [| |[]|[|x]|s|[|x]|l|o|n]; simpl;
    unfold Node.less_than_other; simpl;
    rewrite ?string_lt_irreflexive;
    repeat case_bool_decide; simpl; rewrite ?string_lt_irreflexive;
    try (by intros [= <-]); try done; simplify_eq; lia.
Qed.

(** On the example platform two posts of the same date always come out
    against the order they went in. *)
Lemma Node_sort_reverses_same_date (headers : list (jsstring * option obj))
    (first second : obj) order :
  get first (js "date") = get second (js "date") →
  by_date (Node.platform headers) second first = Ok order →
  Array_sort (Node.platform headers) (by_date (Node.platform headers)) [first; second]
  = Ok [second; first].
Proof.
  intros Hdate Hanswer. apply (V8_sort_reverses_a_pair _ _ _ order); [done|].
  by rewrite (by_date_same_date headers second first order).
Qed.

(** Claim C4 at two posts of the same date.  [by_date] answers -1 for the
    pair in either order and never 0; the run detection of V8 takes the
    answer -1 for [(second, first)] as a descending run and reverses it.
    The feed lists the posts against the order of the directory scan. *)
Lemma C4_equal_dates_leave_the_scan_order :
  readdirSync C4_examples.blog (contentDir C4_examples.blog)
    = Ok [js "2019-08-21-first.md"; js "2019-08-21-second.md"]
  ∧ by_date Examples.node
      (Examples.loops_post (js "2019-08-21-first.md") (JNum (Num 1566345600000)))
      (Examples.loops_post (js "2019-08-21-second.md") (JNum (Num 1566345600000))) = Ok (-1)
  ∧ by_date Examples.node
      (Examples.loops_post (js "2019-08-21-second.md") (JNum (Num 1566345600000)))
      (Examples.loops_post (js "2019-08-21-first.md") (JNum (Num 1566345600000))) = Ok (-1)
  ∧ feed_of (markdownToJson Examples.node C4_examples.blog)
    = Some [Examples.loops_post (js "2019-08-21-second.md") (JNum (Num 1566345600000));
            Examples.loops_post (js "2019-08-21-first.md") (JNum (Num 1566345600000))].
Proof. split_and!; by_running. Qed.

(** *** C5: a file with a malformed header *)



(** The tags that the split returns hold no value that holds itself. *)
Lemma split_tags_circular tags l : split_tags tags = Ok l → circular l = false.
Proof.
  destruct tags; simpl; try done; intros [= <-]; [done..|]. simpl.
  induction (trim <$> split 44 s) as [|t ts IH]; [done|]. by simpl.
Qed.





(** *** C6: the date of a post *)

(** Claim C6, as amended.  Once the file is read, its header loaded, its
    body rendered and cut and its tags split, [getPostData] returns the
    post and logs no failure, whatever the date: the date of the header
    when it has one (neither [undefined] nor [null]), otherwise the Number
    that [Date.parse] makes of the first ten code units of the file name,
    NaN included.  For [2020-01-05-example.md] without a date in the header
    these code units are [2020-01-05]. *)
Theorem C6_date_of_a_post
    (P : Platform) (w : World) (a : FileArg) (text : jsstring) (yamlHeader : obj)
    (contentHtml excerpt : jsstring) (tags : jsval) :
  readFileSync w (absFilePath a) = Ok text →
  loadFront P text = Ok yamlHeader →
  Marked_parse P (get yamlHeader (js "__content")) = Ok contentHtml →
  excerptHtml P contentHtml 250 = Ok excerpt →
  split_tags (get yamlHeader (js "tags")) = Ok tags →
  ∃ post,
    getPostData P w a = ([], Ok (Some post))
    ∧ (nullish (get yamlHeader (js "date")) = false →
       get post (js "date") = get yamlHeader (js "date"))
    ∧ (nullish (get yamlHeader (js "date")) = true →
       get post (js "date") = JNum (Date_parse P (substring (file a) 0 10)))
    ∧ (nullish (get yamlHeader (js "date")) = true →
       file a = js "2020-01-05-example.md" →
       get post (js "date") = JNum (Date_parse P (js "2020-01-05"))).
Proof.
  intros Hread Hfront Hhtml Hex Htags.
  eexists. split; [apply getPostData_ingested; by econstructor|].
  rewrite post_record_date. unfold resolved_date, coalesce.
  split_and!; intros Hdate; rewrite Hdate; [done..|].
  by intros ->.
Qed.

(** C6 at [2020-01-05-example.md]: the date is the time value of the start
    of 5 January 2020 in UTC. *)
Lemma C6_witness :
  get Examples.loops_header (js "date") = JUndefined
  ∧ Node.parse_date (js "2020-01-05") = Num (Node.utc_midnight 2020 1 5)
  ∧ Node.utc_midnight 2020 1 5 = 1578182400000
  ∧ ∃ post,
      getPostData Examples.node C6_examples.blog
        (file_arg C6_examples.blog (js "2020-01-05-example.md"))
      = ([], Ok (Some post))
      ∧ (nullish (get Examples.loops_header (js "date")) = false →
         get post (js "date") = get Examples.loops_header (js "date"))
      ∧ (nullish (get Examples.loops_header (js "date")) = true →
         get post (js "date")
         = JNum (Node.parse_date (substring (js "2020-01-05-example.md") 0 10)))
      ∧ (nullish (get Examples.loops_header (js "date")) = true →
         js "2020-01-05-example.md" = js "2020-01-05-example.md" →
         get post (js "date") = JNum (Node.parse_date (js "2020-01-05"))).
Proof.
  split; [by_running|]. split; [by_running|]. split; [by_running|].
  apply (C6_date_of_a_post Examples.node C6_examples.blog
           (file_arg C6_examples.blog (js "2020-01-05-example.md"))
           Examples.loops_text Examples.loops_header
           (js "<p>I want to start right away with the little problem statement</p>"
              ++ [10%N])
           (js "I want to start right away with the little problem statement")
           (JArr [JStr (js "javascript"); JStr (js "functional"); JStr (js "algorithms");
                  JStr (js "tip")])).
  - by_running.
  - by_running.
  - by_running.
  - by_running.
  - by_running.
Defined.

(** Claim C6 as the specification states it fails in its last part: the
    name [about.md] starts with no date and the header has none, yet
    nothing is thrown and nothing logged; the post is in the feed with the
    date NaN. *)
Lemma C6_counterexample :
  get Examples.loops_header (js "date") = JUndefined
  ∧ Date_parse Examples.node (substring (js "about.md") 0 10) = NaN
  ∧ getPostData Examples.node C6_examples.blog_with_page
      (file_arg C6_examples.blog_with_page (js "about.md"))
    = ([], Ok (Some (Examples.loops_post (js "about.md") (JNum NaN))))
  ∧ feed_of (markdownToJson Examples.node C6_examples.blog_with_page)
    = Some [Examples.loops_post (js "about.md") (JNum NaN)]
  ∧ failures_of (markdownToJson Examples.node C6_examples.blog_with_page) = [].
Proof. split_and!; by_running. Qed.

(** *** C7: the tags of a post *)

Section Strings.

Lemma split_cons sep s : ∃ piece pieces, split sep s = piece :: pieces.
Proof.
  destruct s as [|c s]; simpl; [eauto|].
  case_bool_decide; [eauto|]. destruct (split sep s); eauto.
Qed.

Lemma join_cons sep piece piece' pieces :
  join sep (piece :: piece' :: pieces) = piece ++ sep :: join sep (piece' :: pieces).
Proof. done. Qed.

Lemma join_split sep s : join sep (split sep s) = s.
Proof.
  induction s as [|c s IH]; [done|]. cbn [split].
  destruct (split_cons sep s) as (piece & pieces & Hs). rewrite Hs in *.
  case_bool_decide as Hc.
  - subst c. by rewrite join_cons, IH.
  - destruct pieces as [|piece' pieces].
    + simpl in *. by rewrite IH.
    + rewrite join_cons in *. rewrite <-IH. done.
Qed.

Lemma split_pieces sep s : Forall (λ piece, sep ∉ piece) (split sep s).
Proof.
  induction s as [|c s IH]; cbn [split].
  - constructor; [apply not_elem_of_nil|constructor].
  - destruct (split_cons sep s) as (piece & pieces & Hs). rewrite Hs in *.
    apply Forall_cons in IH as [Hpiece Hpieces].
    case_bool_decide as Hc.
    + constructor; [apply not_elem_of_nil|by constructor].
    + constructor; [|done]. rewrite not_elem_of_cons. split; [congruence|done].
Qed.

Lemma drop_while_spec p s :
  ∃ dropped,
    s = dropped ++ drop_while p s
    ∧ Forall (λ c, p c = true) dropped
    ∧ ∀ c, head (drop_while p s) = Some c → p c = false.
Proof.
  induction s as [|c s (dropped & Hs & Hdropped & Hhead)]; simpl.
  - exists []. split_and!; [done|constructor|done].
  - destruct (p c) eqn:Hc.
    + exists (c :: dropped). split_and!; [by rewrite <-app_comm_cons, <-Hs|by constructor|done].
    + exists []. split_and!; [done|constructor|]. intros c' [= <-]. done.
Qed.

Lemma trim_trimmed s : trimmed_of s (trim s).
Proof.
  unfold trim.
  destruct (drop_while_spec is_white_space s) as (before & Hs & Hbefore & Hhead).
  set (t1 := drop_while is_white_space s) in *.
  destruct (drop_while_spec is_white_space (reverse t1)) as (after & Ht1 & Hafter & Hlast).
  set (t2 := drop_while is_white_space (reverse t1)) in *.
  assert (t1 = reverse t2 ++ reverse after) as Ht1'.
  { by rewrite <-reverse_app, <-Ht1, reverse_involutive. }
  exists before, (reverse after). split_and!.
  - by rewrite <-Ht1'.
  - done.
  - by apply Forall_reverse.
  - intros c Hc. apply Hhead. rewrite Ht1'.
    destruct (reverse t2); [done|]. by simplify_eq/=.
  - intros c Hc. apply Hlast. by rewrite last_reverse in Hc.
Qed.

End Strings.

(** Claim C7, as amended.  When the header gives the tags as one string,
    the tags of the post are the pieces of the string between its commas,
    in their order and each without the white space at its ends; a piece
    that is empty, or empty once trimmed, stays in the list as an empty
    tag.  [a, b , c] gives the tags [a], [b], [c]. *)
Theorem C7_tags_are_the_trimmed_pieces
    (P : Platform) (w : World) (a : FileArg) (out : list effect) (post : obj)
    (text : jsstring) (yamlHeader : obj) (s : jsstring) :
  readFileSync w (absFilePath a) = Ok text →
  loadFront P text = Ok yamlHeader →
  get yamlHeader (js "tags") = JStr s →
  getPostData P w a = (out, Ok (Some post)) →
  (∃ pieces tags,
     join 44%N pieces = s
     ∧ Forall (λ piece, 44%N ∉ piece) pieces
     ∧ Forall2 trimmed_of pieces tags
     ∧ get post (js "tags") = JArr (JStr <$> tags))
  ∧ split_tags (JStr (js "a, b , c")) = Ok (JArr [JStr (js "a"); JStr (js "b"); JStr (js "c")]).
Proof.
  intros Hread Hfront Htags Hpost. split; [|by_running].
  apply getPostData_Some in Hpost as [_ [text' h' ? ? tags Hread' Hfront' _ _ Hsplit ->]].
  rewrite Hread in Hread'. injection Hread' as <-.
  rewrite Hfront in Hfront'. injection Hfront' as <-.
  rewrite Htags in Hsplit. injection Hsplit as <-.
  exists (split 44%N s), (trim <$> split 44%N s). split_and!.
  - apply join_split.
  - apply split_pieces.
  - apply Forall2_fmap_r, Forall_Forall2_diag, Forall_forall.
    intros piece _. apply trim_trimmed.
  - by rewrite post_record_tags.
Qed.

(** C7 at the post of the repository. *)
Lemma C7_witness :
  get Examples.loops_header (js "tags") = JStr (js "javascript, functional, algorithms, tip")
  ∧ (∃ pieces tags,
       join 44%N pieces = js "javascript, functional, algorithms, tip"
       ∧ Forall (λ piece, 44%N ∉ piece) pieces
       ∧ Forall2 trimmed_of pieces tags
       ∧ get (Examples.loops_post (js "2019-08-21-rethink-loops.md")
                (JNum (Num 1566345600000))) (js "tags")
         = JArr (JStr <$> tags))
  ∧ split_tags (JStr (js "a, b , c")) = Ok (JArr [JStr (js "a"); JStr (js "b"); JStr (js "c")]).
Proof.
  split; [by_running|].
  apply (C7_tags_are_the_trimmed_pieces Examples.node C7_examples.loops_blog
           (file_arg C7_examples.loops_blog (js "2019-08-21-rethink-loops.md")) []
           _ Examples.loops_text Examples.loops_header).
  - by_running.
  - by_running.
  - by_running.
  - by_running.
Defined.

(** Claim C7 as the specification states it fails: nothing drops an empty
    entry.  The header [tags: rust, , basics] gives three tags, the second
    one the empty string, and the post is in the feed with them. *)
Lemma C7_counterexample :
  loadFront C7_examples.node C7_examples.gap_text = Ok C7_examples.gap_header
  ∧ get C7_examples.gap_header (js "tags") = JStr (js "rust, , basics")
  ∧ feed_of (markdownToJson C7_examples.node C7_examples.blog) = Some [C7_examples.gap_post]
  ∧ get C7_examples.gap_post (js "tags") = JArr [JStr (js "rust"); JStr []; JStr (js "basics")].
Proof. split_and!; by_running. Qed.

(** *** C8: a file that cannot be read *)

(** The read of [getPostData] stands before its [try]: the exception it
    throws is the rejection of the call. *)
Lemma getPostData_unreadable (P : Platform) (w : World) (a : FileArg) e :
  readFileSync w (absFilePath a) = Throw e → getPostData P w a = ([], Throw e).
Proof. intros Hread. unfold getPostData, bind, lift. by rewrite Hread. Qed.

(** One [.md] file that cannot be read is enough for the build to write no
    feed. *)
Lemma unreadable_file_leaves_no_feed (P : Platform) (w : World) fileNames f e :
  readdirSync w (contentDir w) = Ok fileNames →
  f ∈ md_files fileNames →
  readFileSync w (path_join (contentDir w) f) = Throw e →
  feed_of (markdownToJson P w) = None.
Proof.
  intros Hdir Hf Hread.
  destruct (feed_of (markdownToJson P w)) as [feed|] eqn:Hfeed; [|done].
  apply feed_of_markdownToJson in Hfeed as (fileNames' & Hdir' & Hreads & _).
  rewrite Hdir in Hdir'. injection Hdir' as <-.
  destruct (Hreads f Hf) as [text Htext]. congruence.
Qed.

(** Claim C8 at a directory with one post and one entry that cannot be
    read.  The read is outside the [try] of [getPostData], so the promise of
    that call is rejected, [Promise.all] is rejected with it, and
    [markdownToJson] is rejected before it logs a slug or writes the feed:
    the other post is lost with the batch. *)
Lemma C8_unreadable_file_rejects_the_build :
  getPostData Examples.node C8_examples.blog
    (file_arg C8_examples.blog (js "2020-drafts.md"))
  = ([], Throw (SystemError "EISDIR"))
  ∧ markdownToJson Examples.node C8_examples.blog = ([], Throw (SystemError "EISDIR"))
  ∧ feed_of (markdownToJson Examples.node C8_examples.blog) = None.
Proof. split_and!; by_running. Qed.

(** *** C10: the raw body in the post *)

(** Claim C10.  When [sort] permutes, [loadFront] keeps the body under
    [__content] and the build leaves a feed, every post of the feed comes
    from a file of the directory, has that file's name as slug and carries,
    beside the keys that [getPostData] sets, the key [__content] with the
    very body that [loadFront] took from the file and that [Marked.parse]
    rendered into [contentHtml]; the key is among those that
    [JSON.stringify] writes. *)
Theorem C10_post_carries_the_raw_body
    (P : Platform) (w : World) (feed : list obj) (post : obj) :
  sort_permutes P →
  loadFront_keeps_body P →
  feed_of (markdownToJson P w) = Some feed →
  post ∈ feed →
  ∃ fileNames f text yamlHeader body contentHtml,
    readdirSync w (contentDir w) = Ok fileNames
    ∧ f ∈ fileNames
    ∧ readFileSync w (path_join (contentDir w) f) = Ok text
    ∧ loadFront P text = Ok yamlHeader
    ∧ yamlHeader !! js "__content" = Some (JStr body)
    ∧ Marked_parse P (JStr body) = Ok contentHtml
    ∧ post !! js "slug" = Some (JStr f)
    ∧ post !! js "contentHtml" = Some (JStr contentHtml)
    ∧ post !! js "__content" = Some (JStr body)
    ∧ (∀ k, k ∈ set_by_literal → is_Some (post !! k))
    ∧ js "__content" ∈ serialized_keys post.
Proof.
  intros Hsort Hbody Hfeed Hpost.
  destruct (elem_of_feed P w feed post Hsort Hfeed Hpost) as (fileNames & f & Hdir & Hf & Hentry).
  apply entry_Some in Hentry as [[text h html ex tags Hread Hfront Hhtml Hex Htags ->] Hpub].
  destruct (Hbody _ _ Hfront) as [body Hh].
  assert (get h (js "__content") = JStr body) as Hget by (unfold get; by rewrite Hh).
  rewrite Hget in Hhtml.
  assert (post_record f h html ex tags (resolved_date P f h) !! js "__content"
          = Some (JStr body)) as Hraw.
  { rewrite post_record_spread; [done|].
    unfold set_by_literal. rewrite !not_elem_of_cons. split_and!; try key_ne.
    apply not_elem_of_nil. }
  exists fileNames, f, text, h, body, html. split_and!; try done.
  - by apply list_elem_of_filter in Hf as [_ ?].
  - unfold post_record. rewrite !lookup_insert_ne by key_ne. by rewrite lookup_insert_eq.
  - apply post_record_contentHtml.
  - intros k. unfold set_by_literal. rewrite !elem_of_cons, elem_of_nil.
    unfold post_record.
    intros [->|[->|[->|[->|[->|[]]]]]];
      rewrite ?(lookup_insert_ne _ (js "date")) by key_ne;
      rewrite ?(lookup_insert_ne _ (js "tags")) by key_ne;
      rewrite ?(lookup_insert_ne _ (js "excerptHtml")) by key_ne;
      rewrite ?(lookup_insert_ne _ (js "contentHtml")) by key_ne;
      rewrite lookup_insert_eq; eauto.
  - unfold serialized_keys. apply elem_of_dom. exists (JStr body).
    by apply map_lookup_filter_Some.
Qed.

Lemma Node_keeps_body (headers : list (jsstring * option obj)) :
  Forall (λ entry, ∀ h, entry.2 = Some h → has_body h = true) headers →
  loadFront_keeps_body (Node.platform headers).
Proof.
  intros Hheaders text h Hload. cbn [loadFront Node.platform] in Hload.
  unfold Node.load_front in Hload.
  destruct (list_find _ _) as [[i [t [h'|]]]|] eqn:Hfind; try done.
  injection Hload as ->. apply list_find_Some in Hfind as (Hi & _ & _).
  rewrite Forall_forall in Hheaders.
  specialize (Hheaders _ (list_elem_of_lookup_2 _ _ _ Hi) h eq_refl).
  unfold has_body in Hheaders.
  destruct (h !! js "__content") as [[]|]; try done. eauto.
Qed.

Lemma Examples_node_keeps_body : loadFront_keeps_body Examples.node.
Proof.
  apply Node_keeps_body. unfold Examples.headers.
  repeat (constructor; [intros h [= <-]; by_running|]); repeat constructor; done.
Qed.

(** C10 at the post of the repository. *)
Lemma C10_witness :
  feed_of (markdownToJson Examples.node C10_examples.blog)
    = Some [Examples.loops_post (js "2019-08-21-rethink-loops.md")
              (JNum (Num 1566345600000))]
  ∧ ∃ fileNames f text yamlHeader body contentHtml,
      readdirSync C10_examples.blog (contentDir C10_examples.blog) = Ok fileNames
      ∧ f ∈ fileNames
      ∧ readFileSync C10_examples.blog (path_join (contentDir C10_examples.blog) f) = Ok text
      ∧ loadFront Examples.node text = Ok yamlHeader
      ∧ yamlHeader !! js "__content" = Some (JStr body)
      ∧ Marked_parse Examples.node (JStr body) = Ok contentHtml
      ∧ Examples.loops_post (js "2019-08-21-rethink-loops.md") (JNum (Num 1566345600000))
          !! js "slug" = Some (JStr f)
      ∧ Examples.loops_post (js "2019-08-21-rethink-loops.md") (JNum (Num 1566345600000))
          !! js "contentHtml" = Some (JStr contentHtml)
      ∧ Examples.loops_post (js "2019-08-21-rethink-loops.md") (JNum (Num 1566345600000))
          !! js "__content" = Some (JStr body)
      ∧ (∀ k, k ∈ set_by_literal →
           is_Some (Examples.loops_post (js "2019-08-21-rethink-loops.md")
                      (JNum (Num 1566345600000)) !! k))
      ∧ js "__content" ∈
          serialized_keys (Examples.loops_post (js "2019-08-21-rethink-loops.md")
                             (JNum (Num 1566345600000))).
Proof.
  split; [by_running|].
  apply (C10_post_carries_the_raw_body Examples.node C10_examples.blog
           [Examples.loops_post (js "2019-08-21-rethink-loops.md")
              (JNum (Num 1566345600000))]).
  - apply Node_sort_permutes.
  - apply Examples_node_keeps_body.
  - by_running.
  - apply list_elem_of_singleton. reflexivity.
Defined.

(* ===================================================================== *)
(** ** Further properties of the build                                    *)
(* ===================================================================== *)

(** *** One call of [getPostData] *)

Section One_call.

Context (P : Platform) (w : World).

Lemma getPostData_parse_error (a : FileArg) text e :
  readFileSync w (absFilePath a) = Ok text →
  parse_error P text = Some e →
  getPostData P w a = ([Logged_exception e], Ok None).
Proof.
  intros Hread. unfold parse_error, getPostData, bind, lift, try_catch, ret, emit; simpl.
  rewrite Hread; simpl.
  destruct (loadFront P text) as [h|e']; simpl; [|by intros [= ->]].
  destruct (Marked_parse P (get h (js "__content"))) as [html|e']; simpl; [|by intros [= ->]].
  destruct (excerptHtml P html 250) as [ex|e']; simpl; [|by intros [= ->]].
  destruct (split_tags (get h (js "tags"))) as [tags|e']; simpl; [done|by intros [= ->]].
Qed.

Lemma getPostData_no_parse_error (a : FileArg) text :
  readFileSync w (absFilePath a) = Ok text →
  parse_error P text = None →
  ∃ p, getPostData P w a = ([], Ok (Some p)).
Proof.
  intros Hread. unfold parse_error, getPostData, bind, lift, try_catch, ret, emit; simpl.
  rewrite Hread; simpl.
  destruct (loadFront P text) as [h|e']; simpl; [|done].
  destruct (Marked_parse P (get h (js "__content"))) as [html|e']; simpl; [|done].
  destruct (excerptHtml P html 250) as [ex|e']; simpl; [|done].
  destruct (split_tags (get h (js "tags"))) as [tags|e']; simpl; [eauto|done].
Qed.

(** Extra X1.  [getPostData] gives [undefined] exactly when it has logged
    one exception, and that exception is the first one thrown inside its
    [try] on the text of the file; when it gives a post or is rejected it
    has logged nothing.  No file is skipped without a line on the console,
    and none is logged and kept. *)
Theorem X1_getPostData_logs_exactly_when_it_skips (a : FileArg) :
  ((getPostData P w a).2 = Ok None ↔ ∃ e, (getPostData P w a).1 = [Logged_exception e])
  ∧ ((getPostData P w a).2 ≠ Ok None → (getPostData P w a).1 = [])
  ∧ ((getPostData P w a).2 = Ok None →
     ∃ text e, readFileSync w (absFilePath a) = Ok text
               ∧ parse_error P text = Some e
               ∧ (getPostData P w a).1 = [Logged_exception e]).
Proof.
  destruct (readFileSync w (absFilePath a)) as [text|e] eqn:Hread.
  - destruct (parse_error P text) as [e|] eqn:Hparse.
    + rewrite (getPostData_parse_error a text e Hread Hparse). simpl.
      split_and!; [split; eauto|done|eauto].
    + destruct (getPostData_no_parse_error a text Hread Hparse) as [p ->]. simpl.
      split_and!; [split; [done|by intros [? ?]]|done|done].
  - rewrite (getPostData_unreadable P w a e Hread). simpl.
    split_and!; [split; [done|by intros [? ?]]|done|done].
Qed.

End One_call.

(** *** The course of a run *)

Section Course.

Context (P : Platform) (w : World).

Lemma omap_Written_app (out : list effect) (path : jsstring) (posts : list obj) :
  (∀ path' posts', Written path' posts' ∉ out) →
  omap (λ e, match e with Written _ ps => Some ps | _ => None end)
    (out ++ [Written path posts]) = [posts].
Proof.
  intros Hout. rewrite omap_app. simpl.
  assert (omap (λ e, match e with Written _ ps => Some ps | _ => None end) out
          = @nil (list obj)) as ->; [|done].
  induction out as [|e out IH]; [done|]. csimpl.
  destruct e as [| |path' posts']; [apply IH; intros ? ? ?; eapply Hout; by right..|].
  exfalso. eapply Hout. by left.
Qed.

Lemma logs_hold_no_feed (es : list exn) (ps : list obj) (path : jsstring)
    (posts : list obj) :
  Written path posts ∉
    (Logged_exception <$> es) ++ ((λ p, Logged_ok (get p (js "slug"))) <$> ps).
Proof.
  rewrite elem_of_app, !list_elem_of_fmap. by intros [(? & ? & _)|(? & ? & _)].
Qed.

Lemma exceptions_of_effects (es : list exn) (slugs : list jsval) (path : jsstring)
    (posts : list obj) :
  omap (λ e, match e with Logged_exception x => Some x | _ => None end)
    ((Logged_exception <$> es) ++ (Logged_ok <$> slugs) ++ [Written path posts]) = es.
Proof.
  induction es as [|e es IH]; csimpl; [|by rewrite IH].
  induction slugs as [|s slugs IH]; csimpl; [done|apply IH].
Qed.

(** A run that leaves a feed: the listing, the reads, the sort, the
    serialization and the write go through, and the effects are the
    failures, the slugs and the write. *)
Lemma completed_run feed :
  feed_of (markdownToJson P w) = Some feed →
  ∃ fileNames,
    readdirSync w (contentDir w) = Ok fileNames
    ∧ (∀ f, f ∈ md_files fileNames → read_error w f = None)
    ∧ Array_sort P (by_date P) (omap (entry P w) (md_files fileNames)) = Ok feed
    ∧ markdownToJson P w
      = ((Logged_exception <$> omap (failure P w) (md_files fileNames))
           ++ (Logged_ok <$> ((λ p, get p (js "slug")) <$> feed))
           ++ [Written (targetFile w) feed], Ok ()).
Proof.
  intros (fileNames & Hdir & Hreads & Hfeed & Hjson & Hwrite)%feed_of_markdownToJson.
  exists fileNames. split_and!; [done| |done|].
  - intros f Hf. destruct (Hreads f Hf) as [text Htext].
    unfold read_error. by rewrite Htext.
  - rewrite markdownToJson_unfold.
    assert (getSortedPostsData P w
            = (Logged_exception <$> omap (failure P w) (md_files fileNames), Ok feed)) as ->.
    { apply getSortedPostsData_Ok. exists fileNames. split_and!; try done.
      intros f Hf. apply getPostData_settles, Hreads, Hf. }
    rewrite Hjson, Hwrite. by rewrite <-list_fmap_compose.
Qed.

(** Extra X2.  A run that leaves a feed has gone in this order: one logged
    exception for each [.md] file whose parsing failed, in the order of the
    directory listing; then the slug of each post, in the order of the
    feed; then the one write of the feed to the target file.  It completes
    without rejection. *)
Theorem X2_completed_run_logs_failures_then_slugs_then_writes feed :
  feed_of (markdownToJson P w) = Some feed →
  ∃ fileNames,
    readdirSync w (contentDir w) = Ok fileNames
    ∧ markdownToJson P w
      = ((Logged_exception <$> omap (failure P w) (md_files fileNames))
           ++ (Logged_ok <$> ((λ p, get p (js "slug")) <$> feed))
           ++ [Written (targetFile w) feed], Ok ())
    ∧ failures_of (markdownToJson P w) = omap (failure P w) (md_files fileNames)
    ∧ ∀ f e, failure P w f = Some e →
        ∃ text, readFileSync w (path_join (contentDir w) f) = Ok text
                ∧ parse_error P text = Some e.
Proof.
  intros Hfeed. destruct (completed_run feed Hfeed) as (fileNames & Hdir & _ & _ & Hrun).
  exists fileNames. split_and!; [done..| |].
  - unfold failures_of. rewrite Hrun. cbn [fst]. apply exceptions_of_effects.
  - intros f e Hf. unfold failure in Hf.
    pose proof (getPostData_cases P w (file_arg w f)) as Hcases.
    destruct Hcases as [[p Hp]|[(e' & He' & Hread)|(e' & He' & Hread)]]; rewrite ?Hp, ?He' in Hf;
      try done.
    injection Hf as ->. simpl in Hread.
    destruct (readFileSync w (path_join (contentDir w) f)) as [text|] eqn:Htext;
      [|by destruct Hread].
    exists text. split; [done|].
    destruct (parse_error P text) as [e''|] eqn:Hparse.
    + rewrite (getPostData_parse_error P w (file_arg w f) text e'' Htext Hparse) in He'.
      by injection He' as ->.
    + destruct (getPostData_no_parse_error P w (file_arg w f) text Htext Hparse) as [p Hp].
      congruence.
Qed.

(** Extra X3.  The feed is written at most once and as the last effect of
    the run, to the target file, and exactly when the run completes: a run
    that is rejected has written nothing, so it leaves the feed of the last
    build in place. *)
Theorem X3_feed_written_last_or_never :
  ((markdownToJson P w).2 = Ok () ↔ is_Some (feed_of (markdownToJson P w)))
  ∧ ∀ path posts, Written path posts ∈ (markdownToJson P w).1 →
      (markdownToJson P w).2 = Ok ()
      ∧ path = targetFile w
      ∧ ∃ logs, (markdownToJson P w).1 = logs ++ [Written path posts]
                ∧ ∀ path' posts', Written path' posts' ∉ logs.
Proof.
  rewrite markdownToJson_unfold. unfold feed_of.
  destruct getSortedPostsData_effects with (P := P) (w := w) as [es Hes].
  destruct (getSortedPostsData P w) as [out [posts|e]]; simpl in Hes; subst out;
    cbv zeta.
  - destruct (JSON_stringify posts) as [[]|e]; [|cbn [fst snd]; split].
    + destruct (writeFileSync w (targetFile w)) as [[]|e]; cbn [fst snd].
      * rewrite app_assoc.
        rewrite omap_Written_app by (intros; apply logs_hold_no_feed).
        split; [split; [by eexists|done]|].
        intros path posts' [Hin|Hin%list_elem_of_singleton]%elem_of_app.
        { by apply logs_hold_no_feed in Hin. }
        injection Hin as -> ->. split_and!; [done..|].
        eexists. split; [done|]. intros. apply logs_hold_no_feed.
      * split.
        -- split; [done|]. rewrite no_feed_in_logs. by intros [? ?].
        -- intros path posts' Hin. by apply logs_hold_no_feed in Hin.
    + split; [done|]. rewrite no_feed_in_logs. by intros [? ?].
    + intros path posts' Hin. by apply logs_hold_no_feed in Hin.
  - cbn [fst snd]. split.
    + split; [done|]. pose proof (no_feed_in_logs es []) as Hnone.
      rewrite app_nil_r in Hnone. rewrite Hnone. by intros [? ?].
    + intros path posts' Hin. exfalso.
      apply (logs_hold_no_feed es [] path posts'). by rewrite app_nil_r.
Qed.

End Course.

(** *** Runs that are rejected *)

Section Rejections.

Context (P : Platform) (w : World).

Lemma settled_calls (fs : list jsstring) (e : exn) :
  head (omap (read_error w) fs) = Some e →
  all_settled (getPostData P w <$> (file_arg w <$> fs)).*2 = Throw e.
Proof.
  induction fs as [|f fs IH]; [done|]. csimpl. unfold read_error at 1.
  destruct (readFileSync w (path_join (contentDir w) f)) as [text|e0] eqn:Hread.
  - intros Hhead. rewrite (IH Hhead).
    destruct (proj2 (getPostData_settles P w f)) as [r ->]; [eauto|done].
  - intros [= ->]. by rewrite (getPostData_unreadable P w (file_arg w f) e Hread).
Qed.

Lemma rejected_by_unreadable_file (fileNames : list jsstring) (e : exn) :
  readdirSync w (contentDir w) = Ok fileNames →
  head (omap (read_error w) (md_files fileNames)) = Some e →
  markdownToJson P w
  = (Logged_exception <$> omap (failure P w) (md_files fileNames), Throw e).
Proof.
  intros Hdir Hhead. rewrite markdownToJson_unfold.
  unfold getSortedPostsData, bind, lift, Promise_all, ret. rewrite Hdir.
  fold (md_files fileNames). rewrite map_async_fmap, effects_of_files.
  by rewrite (settled_calls _ _ Hhead).
Qed.

Lemma all_read (fs : list jsstring) :
  head (omap (read_error w) fs) = None ↔ ∀ f, f ∈ fs → read_error w f = None.
Proof.
  induction fs as [|f fs IH]; csimpl.
  - split; [by intros _ f ?%elem_of_nil|done].
  - destruct (read_error w f) as [e|] eqn:Hf; csimpl.
    + split; [done|]. intros Hall. specialize (Hall f (list_elem_of_here _ _)). congruence.
    + rewrite IH. split.
      * intros Hall g [->|Hg]%elem_of_cons; [done|by apply Hall].
      * intros Hall g Hg. apply Hall. by right.
Qed.

(** When every [.md] file is read, [getSortedPostsData] ends as the sort
    of the entries does. *)
Lemma sorted_posts_when_all_read (fileNames : list jsstring) :
  readdirSync w (contentDir w) = Ok fileNames →
  (∀ f, f ∈ md_files fileNames → read_error w f = None) →
  getSortedPostsData P w
  = (Logged_exception <$> omap (failure P w) (md_files fileNames),
     Array_sort P (by_date P) (omap (entry P w) (md_files fileNames))).
Proof.
  intros Hdir Hreads. unfold getSortedPostsData, bind, lift, Promise_all, ret. rewrite Hdir.
  fold (md_files fileNames). rewrite map_async_fmap, effects_of_files.
  destruct (all_settled_total
              (getPostData P w <$> (file_arg w <$> md_files fileNames)).*2) as [all Hall].
  { intros r (m & -> & (a & -> & (f & -> & Hf)%list_elem_of_fmap)%list_elem_of_fmap)%list_elem_of_fmap.
    apply getPostData_settles. specialize (Hreads f Hf).
    unfold read_error in Hreads. destruct (readFileSync _ _); [eauto|done]. }
  rewrite Hall. apply all_settled_Ok in Hall. rewrite (entries_of_files _ _ _ _ Hall).
  by rewrite app_nil_r.
Qed.

(** Extra X4.  When the directory is listed and some [.md] file cannot be
    read, the run is rejected with the exception of the first such file in
    the order of the listing, whatever the other files are.  Every [.md]
    file has been read and parsed all the same, so the parse failures of
    all of them are on the console, but no slug is logged and nothing is
    written. *)
Theorem X4_first_unreadable_file_rejects_the_run (fileNames : list jsstring) (e : exn) :
  readdirSync w (contentDir w) = Ok fileNames →
  head (omap (read_error w) (md_files fileNames)) = Some e →
  markdownToJson P w
  = (Logged_exception <$> omap (failure P w) (md_files fileNames), Throw e).
Proof. apply rejected_by_unreadable_file. Qed.

(** Extra X5.  The slugs are logged before the feed is serialized and
    written.  When the directory is listed, every [.md] file is read and
    the sort returns the feed, but [JSON.stringify] throws on it, or the
    write of the target file throws, the run is rejected with that
    exception after it has logged the parse failures and the slug of every
    post of the feed it was about to write: the slugs on the console do not
    show that the feed was written. *)
Theorem X5_write_failure_comes_after_the_slugs (fileNames : list jsstring)
    (feed : list obj) (e : exn) :
  readdirSync w (contentDir w) = Ok fileNames →
  (∀ f, f ∈ md_files fileNames → read_error w f = None) →
  Array_sort P (by_date P) (omap (entry P w) (md_files fileNames)) = Ok feed →
  JSON_stringify feed = Throw e
  ∨ (JSON_stringify feed = Ok () ∧ writeFileSync w (targetFile w) = Throw e) →
  markdownToJson P w
  = ((Logged_exception <$> omap (failure P w) (md_files fileNames))
       ++ ((λ p, Logged_ok (get p (js "slug"))) <$> feed),
     Throw e)
  ∧ feed_of (markdownToJson P w) = None.
Proof.
  intros Hdir Hreads Hfeed Hthrows.
  assert (markdownToJson P w
          = ((Logged_exception <$> omap (failure P w) (md_files fileNames))
               ++ ((λ p, Logged_ok (get p (js "slug"))) <$> feed),
             Throw e)) as Hrun.
  { rewrite markdownToJson_unfold, (sorted_posts_when_all_read _ Hdir Hreads), Hfeed.
    by destruct Hthrows as [->|[-> ->]]. }
  split; [done|]. unfold feed_of. rewrite Hrun. cbn [fst].
  by rewrite no_feed_in_logs.
Qed.

(** Extra X6.  In a directory without any [.md] file (empty, or holding
    other files only) the build reads no file, logs nothing and writes the
    empty feed. *)
Theorem X6_no_markdown_file_gives_the_empty_feed (fileNames : list jsstring) :
  sort_permutes P →
  readdirSync w (contentDir w) = Ok fileNames →
  md_files fileNames = [] →
  writeFileSync w (targetFile w) = Ok () →
  markdownToJson P w = ([Written (targetFile w) []], Ok ()).
Proof.
  intros Hsort Hdir Hmd Hwrite.
  assert (getSortedPostsData P w = ([], Ok [])) as Hposts.
  { apply getSortedPostsData_Ok. exists fileNames. rewrite Hmd. split_and!; try done.
    - by intros f ?%elem_of_nil.
    - simpl. apply sort_short; [done|simpl; lia]. }
  by rewrite markdownToJson_unfold, Hposts, JSON_stringify_nil, Hwrite.
Qed.

(** Extra X13.  A run is rejected in five ways and no other: the listing
    of the directory throws; or the directory is listed and some [.md] file
    cannot be read; or all of them are read and the sort of the entries
    throws, as it does when a comparison of two dates throws; or the sort
    returns the feed and [JSON.stringify] throws on it; or the feed is
    serialized and the write of the target throws.  The rejection is the
    exception of that call, for the files the one of the first in the order
    of the listing.  No exception thrown by [loadFront], [Marked.parse],
    [excerptHtml] or the split of the tags ever rejects the run. *)
Theorem X13_five_ways_to_reject (e : exn) :
  (markdownToJson P w).2 = Throw e ↔
  readdirSync w (contentDir w) = Throw e
  ∨ (∃ fileNames,
       readdirSync w (contentDir w) = Ok fileNames
       ∧ head (omap (read_error w) (md_files fileNames)) = Some e)
  ∨ (∃ fileNames,
       readdirSync w (contentDir w) = Ok fileNames
       ∧ head (omap (read_error w) (md_files fileNames)) = None
       ∧ Array_sort P (by_date P) (omap (entry P w) (md_files fileNames)) = Throw e)
  ∨ (∃ fileNames feed,
       readdirSync w (contentDir w) = Ok fileNames
       ∧ head (omap (read_error w) (md_files fileNames)) = None
       ∧ Array_sort P (by_date P) (omap (entry P w) (md_files fileNames)) = Ok feed
       ∧ JSON_stringify feed = Throw e)
  ∨ (∃ fileNames feed,
       readdirSync w (contentDir w) = Ok fileNames
       ∧ head (omap (read_error w) (md_files fileNames)) = None
       ∧ Array_sort P (by_date P) (omap (entry P w) (md_files fileNames)) = Ok feed
       ∧ JSON_stringify feed = Ok ()
       ∧ writeFileSync w (targetFile w) = Throw e).
Proof.
  destruct (readdirSync w (contentDir w)) as [fileNames|e0] eqn:Hdir.
  - destruct (head (omap (read_error w) (md_files fileNames))) as [e0|] eqn:Hhead.
    + rewrite (rejected_by_unreadable_file fileNames e0 Hdir Hhead). simpl. split.
      * intros [= ->]. right; left. eauto.
      * intros [?|[(names & [= <-] & Hhead')|[(names & [= <-] & Hhead' & _)
                  |[(names & ? & [= <-] & Hhead' & _)|(names & ? & [= <-] & Hhead' & _)]]]];
          congruence.
    + rewrite markdownToJson_unfold.
      rewrite (sorted_posts_when_all_read fileNames Hdir (proj1 (all_read _) Hhead)).
      destruct (Array_sort P (by_date P) (omap (entry P w) (md_files fileNames)))
        as [feed|e0] eqn:Hfeed; cbv zeta.
      * destruct (JSON_stringify feed) as [[]|e0] eqn:Hjson.
        -- destruct (writeFileSync w (targetFile w)) as [[]|e0] eqn:Hwrite; simpl; split.
           ++ done.
           ++ intros [?|[(names & [= <-] & ?)|[(names & [= <-] & _ & ?)
                       |[(names & ? & [= <-] & _ & ? & ?)|(names & ? & [= <-] & _ & ? & _ & ?)]]]];
                congruence.
           ++ intros [= ->]. do 4 right. eauto 8.
           ++ intros [?|[(names & [= <-] & ?)|[(names & [= <-] & _ & ?)
                       |[(names & ? & [= <-] & _ & ? & ?)|(names & ? & [= <-] & _ & ? & _ & ?)]]]];
                congruence.
        -- simpl. split.
           ++ intros [= ->]. do 3 right; left. eauto 8.
           ++ intros [?|[(names & [= <-] & ?)|[(names & [= <-] & _ & ?)
                       |[(names & ? & [= <-] & _ & ? & ?)|(names & ? & [= <-] & _ & ? & ? & _)]]]];
                congruence.
      * simpl. split.
        -- intros [= ->]. do 2 right; left. eauto.
        -- intros [?|[(names & [= <-] & ?)|[(names & [= <-] & _ & ?)
                    |[(names & ? & [= <-] & _ & ? & _)|(names & ? & [= <-] & _ & ? & _)]]]];
             congruence.
  - rewrite markdownToJson_unfold. unfold getSortedPostsData, bind, lift. rewrite Hdir.
    simpl. split.
    + intros [= ->]. by left.
    + intros [?|[(names & ? & _)|[(names & ? & _)|[(names & ? & ? & _)|(names & ? & ? & _)]]]];
        congruence.
Qed.

End Rejections.

(** *** What becomes of every file *)

Section Accounting.

Context (P : Platform) (w : World).

Lemma outcomes_of_files (fs : list jsstring) :
  (∀ f, f ∈ fs → read_error w f = None) →
  (length (omap (entry P w) fs) + length (omap (failure P w) fs)
   + length (omap (unpublished_post P w) fs) = length fs)%nat.
Proof.
  induction fs as [|f fs IH]; intros Hreads; [done|].
  assert (length (omap (entry P w) fs) + length (omap (failure P w) fs)
          + length (omap (unpublished_post P w) fs) = length fs)%nat as IH'.
  { apply IH. intros g Hg. apply Hreads. by right. }
  specialize (Hreads f (list_elem_of_here _ _)). unfold read_error in Hreads.
  csimpl. unfold entry at 1, failure at 1, unpublished_post at 1.
  destruct (getPostData_cases P w (file_arg w f))
    as [[p ->]|[(e & -> & _)|(e & _ & Hread)]]; simpl.
  - destruct (truthy (get p (js "published"))); simpl; lia.
  - simpl. lia.
  - simpl in Hread. by rewrite Hread in Hreads.
Qed.

(** Extra X7.  In a run that leaves a feed every [.md] file of the
    directory is accounted for in exactly one way: as a post of the feed, as
    an exception on the console, or as a post that was ingested and left
    out without a word because its [published] is falsy.  So a file that is
    neither in the feed nor on the console was unpublished. *)
Theorem X7_every_markdown_file_is_accounted_for (feed : list obj) :
  sort_permutes P →
  feed_of (markdownToJson P w) = Some feed →
  ∃ fileNames,
    readdirSync w (contentDir w) = Ok fileNames
    ∧ (length feed + length (failures_of (markdownToJson P w))
       + length (omap (unpublished_post P w) (md_files fileNames))
       = length (md_files fileNames))%nat
    ∧ ∀ f, f ∈ md_files fileNames →
        (is_Some (entry P w f) ∧ failure P w f = None ∧ unpublished_post P w f = None)
        ∨ (entry P w f = None ∧ is_Some (failure P w f) ∧ unpublished_post P w f = None)
        ∨ (entry P w f = None ∧ failure P w f = None ∧ is_Some (unpublished_post P w f)).
Proof.
  intros Hsort Hfeed.
  destruct (completed_run P w feed Hfeed) as (fileNames & Hdir & Hreads & Hsorted & Hrun).
  exists fileNames. split_and!; [done| |].
  - unfold failures_of. rewrite Hrun. cbn [fst]. rewrite exceptions_of_effects.
    rewrite (sorted_permutes _ _ _ _ Hsort Hsorted).
    by apply outcomes_of_files.
  - intros f Hf. specialize (Hreads f Hf). unfold read_error in Hreads.
    unfold entry, failure, unpublished_post.
    destruct (getPostData_cases P w (file_arg w f))
      as [[p ->]|[(e & -> & _)|(e & _ & Hread)]]; simpl.
    + destruct (truthy (get p (js "published"))); [left|right; right]; eauto.
    + right; left. eauto.
    + simpl in Hread. by rewrite Hread in Hreads.
Qed.

(** Extra X8.  Every post of the feed comes from one [.md] file of the
    listing and has that name, extension included, as its slug.  A key of
    the header cannot replace the slug, the rendered body or the excerpt:
    these are the file name and what [Marked.parse] and [excerptHtml]
    returned even when the header has keys of these names.  Every other key
    of the header, [tags] and [date] apart, is in the post with the value
    the header gave it, whether the type [Post] knows the key or not. *)
Theorem X8_post_keeps_the_header_and_its_own_fields (feed : list obj) (post : obj) :
  sort_permutes P →
  feed_of (markdownToJson P w) = Some feed →
  post ∈ feed →
  ∃ fileNames f text yamlHeader contentHtml excerpt,
    readdirSync w (contentDir w) = Ok fileNames
    ∧ f ∈ fileNames
    ∧ endsWith f (js ".md") = true
    ∧ readFileSync w (path_join (contentDir w) f) = Ok text
    ∧ loadFront P text = Ok yamlHeader
    ∧ Marked_parse P (get yamlHeader (js "__content")) = Ok contentHtml
    ∧ excerptHtml P contentHtml 250 = Ok excerpt
    ∧ post !! js "slug" = Some (JStr f)
    ∧ post !! js "contentHtml" = Some (JStr contentHtml)
    ∧ post !! js "excerptHtml" = Some (JStr excerpt)
    ∧ ∀ k, k ∉ set_by_literal → post !! k = yamlHeader !! k.
Proof.
  intros Hsort Hfeed Hpost.
  destruct (elem_of_feed P w feed post Hsort Hfeed Hpost) as (fileNames & f & Hdir & Hf & Hentry).
  apply entry_Some in Hentry as [[text h html ex tags Hread Hfront Hhtml Hex Htags ->] Hpub].
  apply list_elem_of_filter in Hf as [Hmd Hf].
  exists fileNames, f, text, h, html, ex. split_and!; try done.
  - unfold post_record. rewrite !lookup_insert_ne by key_ne. by rewrite lookup_insert_eq.
  - apply post_record_contentHtml.
  - apply post_record_excerptHtml.
  - intros k Hk. by apply post_record_spread.
Qed.

(** Extra X9.  The keys of an ingested post that [JSON.stringify] writes
    always include [slug], [contentHtml], [excerptHtml] and [date].  They
    include [tags] exactly when the header gives tags: for a header without
    tags, or with [tags: null], the post holds [tags: undefined] and the
    serialized post has no [tags] key at all. *)
Theorem X9_serialized_post_has_tags_only_when_the_header_has (a : FileArg) (post : obj)
    (text : jsstring) (yamlHeader : obj) :
  readFileSync w (absFilePath a) = Ok text →
  loadFront P text = Ok yamlHeader →
  (getPostData P w a).2 = Ok (Some post) →
  {[js "slug"; js "contentHtml"; js "excerptHtml"; js "date"]} ⊆ serialized_keys post
  ∧ (js "tags" ∈ serialized_keys post ↔ nullish (get yamlHeader (js "tags")) = false)
  ∧ (nullish (get yamlHeader (js "tags")) = true → post !! js "tags" = Some JUndefined).
Proof.
  intros Hread Hfront Hpost.
  destruct (getPostData P w a) as [out r] eqn:Hrun. simpl in Hpost. subst r.
  apply getPostData_Some in Hrun as [_ [text' h' html ex tags Hread' Hfront' _ _ Hsplit ->]].
  rewrite Hread in Hread'. injection Hread' as <-.
  rewrite Hfront in Hfront'. injection Hfront' as <-.
  assert (∀ k v, post_record (file a) yamlHeader html ex tags
                   (resolved_date P (file a) yamlHeader) !! k = Some v →
                 is_undefined v = false →
                 k ∈ serialized_keys (post_record (file a) yamlHeader html ex tags
                                        (resolved_date P (file a) yamlHeader))) as Hkey.
  { intros k v Hk Hv. unfold serialized_keys. apply elem_of_dom. exists v.
    by apply map_lookup_filter_Some. }
  assert (post_record (file a) yamlHeader html ex tags
            (resolved_date P (file a) yamlHeader) !! js "tags" = Some tags) as Htags.
  { unfold post_record. rewrite lookup_insert_ne by key_ne. by rewrite lookup_insert_eq. }
  split_and!.
  - intros k. rewrite !elem_of_union, !elem_of_singleton.
    intros [[[->| ->]| ->]| ->].
    + apply (Hkey _ (JStr (file a))); [|done]. unfold post_record.
      rewrite !lookup_insert_ne by key_ne. by rewrite lookup_insert_eq.
    + eapply Hkey; [apply post_record_contentHtml|done].
    + eapply Hkey; [apply post_record_excerptHtml|done].
    + eapply Hkey; [unfold post_record; by rewrite lookup_insert_eq|].
      unfold resolved_date, coalesce.
      by destruct (get yamlHeader (js "date")).
  - split.
    + unfold serialized_keys. intros [v Hv]%elem_of_dom.
      apply map_lookup_filter_Some in Hv as [Hv Hdef]. simpl in Hdef.
      rewrite Htags in Hv. injection Hv as ->.
      destruct (get yamlHeader (js "tags")); simpl in *; by simplify_eq.
    + intros Hnull. eapply Hkey; [done|].
      destruct (get yamlHeader (js "tags")); simpl in *; by simplify_eq.
  - intros Hnull. rewrite Htags. f_equal.
    destruct (get yamlHeader (js "tags")); simpl in *; by simplify_eq.
Qed.

End Accounting.

(** *** What a run depends on *)

Section Dependence.

Context (P : Platform).

Lemma contentDir_ext (w1 w2 : World) : cwd w1 = cwd w2 → contentDir w1 = contentDir w2.
Proof. unfold contentDir. by intros ->. Qed.

Lemma getPostData_ext (w1 w2 : World) (f : jsstring) :
  cwd w1 = cwd w2 →
  readFileSync w1 (path_join (contentDir w1) f) = readFileSync w2 (path_join (contentDir w2) f) →
  getPostData P w1 (file_arg w1 f) = getPostData P w2 (file_arg w2 f).
Proof.
  intros Hcwd Hread. unfold getPostData, file_arg. cbn [absFilePath file].
  by rewrite Hread.
Qed.

Lemma map_async_files_ext (w1 w2 : World) (fs : list jsstring) :
  (∀ f, f ∈ fs →
     getPostData P w1 (file_arg w1 f) = getPostData P w2 (file_arg w2 f)) →
  map_async (getPostData P w1) (file_arg w1 <$> fs)
  = map_async (getPostData P w2) (file_arg w2 <$> fs).
Proof.
  induction fs as [|f fs IH]; intros Hext; [done|]. csimpl.
  rewrite (Hext f) by by left. rewrite IH; [done|].
  intros g Hg. apply Hext. by right.
Qed.

(** Extra X10.  A run depends on the directory listing only through its
    names that end in [.md], and reads no other file: two file systems with
    the same working directory whose listings have the same [.md] names in
    the same order, whose [.md] files read alike and whose target writes
    alike give the same run, whatever other entries the directories hold and
    whether these can be read or not. *)
Theorem X10_other_files_are_never_read (w1 w2 : World) (names1 names2 : list jsstring) :
  cwd w1 = cwd w2 →
  readdirSync w1 (contentDir w1) = Ok names1 →
  readdirSync w2 (contentDir w2) = Ok names2 →
  md_files names1 = md_files names2 →
  (∀ f, f ∈ md_files names1 →
     readFileSync w1 (path_join (contentDir w1) f)
     = readFileSync w2 (path_join (contentDir w2) f)) →
  writeFileSync w1 (targetFile w1) = writeFileSync w2 (targetFile w2) →
  markdownToJson P w1 = markdownToJson P w2.
Proof.
  intros Hcwd Hdir1 Hdir2 Hmd Hreads Hwrite.
  assert (targetFile w1 = targetFile w2) as Htarget by (unfold targetFile; by rewrite Hcwd).
  assert (getSortedPostsData P w1 = getSortedPostsData P w2) as Hposts.
  { unfold getSortedPostsData, bind, lift, Promise_all, ret. rewrite Hdir1, Hdir2.
    fold (md_files names1) (md_files names2). rewrite <-Hmd.
    rewrite (map_async_files_ext w1 w2 (md_files names1)); [done|].
    intros f Hf. apply getPostData_ext; [done|]. by apply Hreads. }
  by rewrite !markdownToJson_unfold, Hposts, Hwrite, Htarget.
Qed.

(** No comparison of two dates that have a time value throws. *)
Lemma by_date_completes (a b : obj) :
  has_time_value (get a (js "date")) = true →
  has_time_value (get b (js "date")) = true →
  ∃ order, by_date P a b = Ok order.
Proof.
  unfold has_time_value, by_date, js_lt, IsLessThan.
  destruct (to_number (get a (js "date"))) as [[|x]|]; try done.
  destruct (to_number (get b (js "date"))) as [[|y]|]; try done.
  intros _ _. simpl. case_bool_decide; eauto.
Qed.

Lemma entry_ext (w1 w2 : World) (f : jsstring) :
  cwd w1 = cwd w2 →
  readFileSync w1 (path_join (contentDir w1) f) = readFileSync w2 (path_join (contentDir w2) f) →
  entry P w1 f = entry P w2 f.
Proof. intros Hcwd Hread. unfold entry. by rewrite (getPostData_ext w1 w2 f). Qed.

(** Extra X11.  The order in which the system lists the directory does not
    show in the feed when the dates tell the posts apart: for two file
    systems that differ only in the order of the listing, if the first run
    leaves a feed whose dates are all Dates or Numbers other than NaN and
    pairwise different, the second run leaves the same feed, in the same
    order, under a sort that permutes and places by the answers it gets. *)
Theorem X11_feed_does_not_depend_on_listing_order
    (w1 w2 : World) (names1 names2 : list jsstring) (feed : list obj) :
  sort_permutes P →
  sort_follows_answers P →
  cwd w1 = cwd w2 →
  (∀ path, readFileSync w1 path = readFileSync w2 path) →
  (∀ path, writeFileSync w1 path = writeFileSync w2 path) →
  readdirSync w1 (contentDir w1) = Ok names1 →
  readdirSync w2 (contentDir w2) = Ok names2 →
  names1 ≡ₚ names2 →
  feed_of (markdownToJson P w1) = Some feed →
  (∀ p, p ∈ feed → has_time_value (get p (js "date")) = true) →
  (∀ p q, p ∈ feed → q ∈ feed →
     to_number (get p (js "date")) = to_number (get q (js "date")) → p = q) →
  feed_of (markdownToJson P w2) = Some feed.
Proof.
  intros Hperm Hsort Hcwd Hreads Hwrites Hdir1 Hdir2 Hnames Hfeed Htimes Hdistinct.
  pose proof (contentDir_ext w1 w2 Hcwd) as Hcontent.
  assert (targetFile w1 = targetFile w2) as Htarget by (unfold targetFile; by rewrite Hcwd).
  apply feed_of_markdownToJson in Hfeed as (names & Hdir & Hok & Hfeed & Hjson & Hwrite).
  rewrite Hdir1 in Hdir. injection Hdir as <-.
  set (posts1 := omap (entry P w1) (md_files names1)) in *.
  set (posts2 := omap (entry P w2) (md_files names2)).
  assert (posts1 ≡ₚ posts2) as Hposts.
  { subst posts1 posts2. unfold md_files. rewrite <-Hnames.
    assert (omap (entry P w2) (filter (λ f, endsWith f (js ".md") = true) names1)
            = omap (entry P w1) (filter (λ f, endsWith f (js ".md") = true) names1)) as ->;
      [|done].
    apply list_omap_ext, Forall2_same_length_lookup. split; [done|].
    intros i f g Hf Hg. rewrite Hf in Hg. injection Hg as <-.
    symmetry. apply entry_ext; [done|]. rewrite Hcontent. apply Hreads. }
  pose proof (sorted_permutes _ _ _ _ Hperm Hfeed) as Hfeed1.
  assert (∀ p, p ∈ posts2 → has_time_value (get p (js "date")) = true) as Htimes2.
  { intros p Hp. apply Htimes. by rewrite Hfeed1, Hposts. }
  destruct (sort_completes P (by_date P) posts2 Hperm) as [feed2 Hfeed2].
  { intros a b Ha Hb. apply by_date_completes; by apply Htimes2. }
  pose proof (sorted_permutes _ _ _ _ Hperm Hfeed2) as Hfeed2'.
  assert (feed2 = feed) as ->.
  { apply (Sorted_unique_strong not_earlier).
    - intros p q Hp Hq (x & y & Hpx & Hqy & Hyx) (y' & x' & Hqy' & Hpx' & Hxy).
      apply Hdistinct.
      + by rewrite Hfeed2', <-Hposts, <-Hfeed1 in Hp.
      + done.
      + rewrite Hpx, Hqy. rewrite Hpx in Hpx'. rewrite Hqy in Hqy'. simplify_eq.
        do 2 f_equal. lia.
    - eapply Hsort; [apply _| |done]. by apply by_date_backed.
    - eapply Hsort; [apply _| |done]. apply by_date_backed.
      intros p Hp. apply Htimes2. by rewrite <-Hposts.
    - by rewrite Hfeed1, Hfeed2'. }
  apply feed_of_markdownToJson. exists names2. split_and!; [done| |done|done|].
  - intros f Hf. unfold md_files in Hf. rewrite <-Hnames in Hf.
    destruct (Hok f Hf) as [text Htext]. exists text. by rewrite <-Hcontent, <-Hreads.
  - by rewrite <-Htarget, <-Hwrites.
Qed.

End Dependence.

(** *** The number of tags *)

Lemma length_split (sep : N) (s : jsstring) :
  length (split sep s) = S (occurrences sep s).
Proof.
  unfold occurrences. induction s as [|c s IH]; [done|]. cbn [split].
  rewrite filter_cons. destruct (split_cons sep s) as (piece & pieces & Hs).
  rewrite Hs in *. case_bool_decide as Hc.
  - rewrite decide_True by done. simpl in *. by rewrite IH.
  - rewrite decide_False by done. simpl in *. by rewrite <-IH.
Qed.

(** Extra X12.  When the header gives the tags as a string, the post has
    one tag more than the string has commas: the list of tags is never
    empty, and an empty string of tags gives the one tag [""]. *)
Theorem X12_one_tag_more_than_commas (P : Platform) (w : World) (a : FileArg)
    (post : obj) (text : jsstring) (yamlHeader : obj) (s : jsstring) :
  readFileSync w (absFilePath a) = Ok text →
  loadFront P text = Ok yamlHeader →
  get yamlHeader (js "tags") = JStr s →
  (getPostData P w a).2 = Ok (Some post) →
  ∃ tags, get post (js "tags") = JArr (JStr <$> tags)
          ∧ length tags = S (occurrences 44%N s)
          ∧ (s = [] → tags = [[]]).
Proof.
  intros Hread Hfront Htags Hpost.
  destruct (getPostData P w a) as [out r] eqn:Hrun. simpl in Hpost. subst r.
  apply getPostData_Some in Hrun as [_ [text' h' html ex tags Hread' Hfront' _ _ Hsplit ->]].
  rewrite Hread in Hread'. injection Hread' as <-.
  rewrite Hfront in Hfront'. injection Hfront' as <-.
  rewrite Htags in Hsplit. injection Hsplit as <-.
  exists (trim <$> split 44%N s). split_and!.
  - by rewrite post_record_tags.
  - by rewrite length_fmap, length_split.
  - by intros ->.
Qed.

(** *** The sort and the serialization *)

Section Completion.

Context (P : Platform) (w : World).

(** The comparison of two dates throws only inside the conversion of an
    operand that is a String, a sequence or a mapping. *)
Lemma by_date_throws (a b : obj) (e : exn) :
  by_date P a b = Throw e →
  IsLessThan_other P (get a (js "date")) (get b (js "date")) = Throw e
  ∧ (to_number (get a (js "date")) = None ∨ to_number (get b (js "date")) = None).
Proof.
  intros Hthrow.
  assert (IsLessThan P (get a (js "date")) (get b (js "date")) = Throw e) as Hlt.
  { unfold by_date, js_lt in Hthrow.
    destruct (IsLessThan P _ _) as [r|e']; simpl in Hthrow; [|by injection Hthrow as ->].
    by destruct (bool_decide _). }
  unfold IsLessThan in Hlt.
  destruct (to_number (get a (js "date"))) as [[|x]|];
    destruct (to_number (get b (js "date"))) as [[|y]|]; try done; eauto.
Qed.

(** Extra X14.  When the directory is listed and every [.md] file is read
    but the sort throws, the run is rejected with that exception before any
    slug is logged and nothing is written: the parse failures are all that
    is on the console.  Under a sort that throws only what the comparator
    throws, the exception comes from the comparison [a.date < b.date] of two
    posts of the directory, in the conversion of a date that is neither a
    Number nor a Date (nor a Boolean, [null] or [undefined]): a String, a
    sequence or a mapping. *)
Theorem X14_dates_without_primitive_value_reject_inside_sort
    (fileNames : list jsstring) (e : exn) :
  sort_permutes P →
  readdirSync w (contentDir w) = Ok fileNames →
  (∀ f, f ∈ md_files fileNames → read_error w f = None) →
  Array_sort P (by_date P) (omap (entry P w) (md_files fileNames)) = Throw e →
  markdownToJson P w
  = (Logged_exception <$> omap (failure P w) (md_files fileNames), Throw e)
  ∧ feed_of (markdownToJson P w) = None
  ∧ ∃ f g p q,
      f ∈ md_files fileNames ∧ g ∈ md_files fileNames
      ∧ entry P w f = Some p ∧ entry P w g = Some q
      ∧ IsLessThan_other P (get p (js "date")) (get q (js "date")) = Throw e
      ∧ (to_number (get p (js "date")) = None ∨ to_number (get q (js "date")) = None).
Proof.
  intros Hsort Hdir Hreads Hthrow.
  assert (markdownToJson P w
          = (Logged_exception <$> omap (failure P w) (md_files fileNames), Throw e)) as Hrun.
  { by rewrite markdownToJson_unfold, (sorted_posts_when_all_read _ _ _ Hdir Hreads), Hthrow. }
  split_and!; [done| |].
  - unfold feed_of. rewrite Hrun. cbn [fst].
    pose proof (no_feed_in_logs (omap (failure P w) (md_files fileNames)) []) as Hnone.
    rewrite app_nil_r in Hnone. by rewrite Hnone.
  - destruct (sort_thrown _ _ _ _ Hsort Hthrow) as (p & q & Hpq & Hby).
    assert (p ∈ omap (entry P w) (md_files fileNames)) as Hp.
    { eapply elem_of_submseteq; [|done]. by left. }
    assert (q ∈ omap (entry P w) (md_files fileNames)) as Hq.
    { eapply elem_of_submseteq; [|done]. right. by left. }
    apply list_elem_of_omap in Hp as (f & Hf & Hfp).
    apply list_elem_of_omap in Hq as (g & Hg & Hgq).
    apply by_date_throws in Hby as [Hother Hnone].
    exists f, g, p, q. by split_and!.
Qed.

(** Extra X15.  The build completes when nothing stands in its way: with
    a sort that throws only what the comparator throws, a directory that is
    listed, [.md] files that are all read, posts whose dates are Dates or
    Numbers other than NaN and none of which holds a value that holds
    itself, and a target that can be written, the run is not rejected and
    leaves a feed, which holds the posts of the published files, each once;
    the exceptions on the console are those of the files whose parsing
    failed. *)
Theorem X15_build_completes (fileNames : list jsstring) :
  sort_permutes P →
  readdirSync w (contentDir w) = Ok fileNames →
  (∀ f, f ∈ md_files fileNames → read_error w f = None) →
  (∀ f p, f ∈ md_files fileNames → entry P w f = Some p →
     has_time_value (get p (js "date")) = true ∧ acyclic p = true) →
  writeFileSync w (targetFile w) = Ok () →
  ∃ feed,
    (markdownToJson P w).2 = Ok ()
    ∧ feed_of (markdownToJson P w) = Some feed
    ∧ feed ≡ₚ omap (entry P w) (md_files fileNames)
    ∧ failures_of (markdownToJson P w) = omap (failure P w) (md_files fileNames).
Proof.
  intros Hsort Hdir Hreads Hposts Hwrite.
  destruct (sort_completes P (by_date P) (omap (entry P w) (md_files fileNames)) Hsort)
    as [feed Hfeed].
  { intros a b (f & Hf & Hfa)%list_elem_of_omap (g & Hg & Hgb)%list_elem_of_omap.
    apply by_date_completes; [by apply (Hposts f)|by apply (Hposts g)]. }
  pose proof (sorted_permutes _ _ _ _ Hsort Hfeed) as Hperm.
  assert (JSON_stringify feed = Ok ()) as Hjson.
  { apply JSON_stringify_Ok, Forall_forall. intros p Hp. rewrite Hperm in Hp.
    apply list_elem_of_omap in Hp as (f & Hf & Hfp). by apply (Hposts f). }
  assert (feed_of (markdownToJson P w) = Some feed) as Hwritten.
  { apply feed_of_markdownToJson. exists fileNames. split_and!; try done.
    intros f Hf. specialize (Hreads f Hf). unfold read_error in Hreads.
    destruct (readFileSync _ _); [eauto|done]. }
  exists feed. destruct (completed_run P w feed Hwritten) as (names & Hdir' & _ & _ & Hrun).
  rewrite Hdir in Hdir'. injection Hdir' as <-.
  split_and!; [by rewrite Hrun|done|done|].
  unfold failures_of. rewrite Hrun. cbn [fst]. apply exceptions_of_effects.
Qed.

(** Extra X16.  [JSON.stringify] completes on a post that [getPostData]
    returned exactly when the header holds no value that holds itself under
    a key other than [slug], [contentHtml] and [excerptHtml]: a value under
    one of these three is replaced by a String, and a header whose [tags]
    hold themselves gives no post at all. *)
Theorem X16_post_holds_itself_only_through_the_header
    (a : FileArg) (post : obj) (text : jsstring) (yamlHeader : obj) :
  readFileSync w (absFilePath a) = Ok text →
  loadFront P text = Ok yamlHeader →
  (getPostData P w a).2 = Ok (Some post) →
  JSON_stringify [post] = Ok () ↔
  ∀ k v, yamlHeader !! k = Some v → k ∉ replaced_by_string → circular v = false.
Proof.
  intros Hread Hfront Hpost.
  destruct (getPostData P w a) as [out r] eqn:Hrun. simpl in Hpost. subst r.
  apply getPostData_Some in Hrun as [_ [text' h' html ex tags Hread' Hfront' _ _ Hsplit ->]].
  rewrite Hread in Hread'. injection Hread' as <-.
  rewrite Hfront in Hfront'. injection Hfront' as <-.
  rewrite JSON_stringify_Ok, Forall_singleton.
  unfold acyclic. rewrite bool_decide_eq_true. unfold replaced_by_string. split.
  - intros Hall k v Hk. rewrite !not_elem_of_cons. intros (Hslug & Hhtml & Hex & _).
    destruct (decide (k = js "tags")) as [->|Htags].
    { unfold get in Hsplit. rewrite Hk in Hsplit. simpl in Hsplit. by destruct v. }
    destruct (decide (k = js "date")) as [->|Hdate].
    { specialize (Hall (js "date") (resolved_date P (file a) yamlHeader)).
      unfold post_record in Hall. rewrite lookup_insert_eq in Hall.
      specialize (Hall eq_refl). simpl in Hall.
      unfold resolved_date, coalesce, get in Hall. rewrite Hk in Hall. simpl in Hall.
      by destruct v. }
    apply (Hall k v). unfold post_record. by rewrite !lookup_insert_ne.
  - intros Hheader k v. unfold post_record.
    destruct (decide (k = js "date")) as [->|Hdate].
    { rewrite lookup_insert_eq. intros [= <-]. unfold resolved_date, coalesce, get.
      destruct (yamlHeader !! js "date") as [date|] eqn:Hd; simpl; [|done].
      assert (circular date = false) as Hdate.
      { apply (Hheader (js "date") date Hd). rewrite !not_elem_of_cons.
        split_and!; try key_ne. apply not_elem_of_nil. }
      by destruct date. }
    rewrite lookup_insert_ne by done.
    destruct (decide (k = js "tags")) as [->|Htags].
    { rewrite lookup_insert_eq. intros [= <-]. simpl. by eapply split_tags_circular. }
    rewrite lookup_insert_ne by done.
    destruct (decide (k = js "excerptHtml")) as [->|Hex].
    { rewrite lookup_insert_eq. by intros [= <-]. }
    rewrite lookup_insert_ne by done.
    destruct (decide (k = js "contentHtml")) as [->|Hhtml].
    { rewrite lookup_insert_eq. by intros [= <-]. }
    rewrite lookup_insert_ne by done.
    destruct (decide (k = js "slug")) as [->|Hslug].
    { rewrite lookup_insert_eq. by intros [= <-]. }
    rewrite lookup_insert_ne by done.
    intros Hk. apply (Hheader k v Hk). rewrite !not_elem_of_cons.
    split_and!; try done. apply not_elem_of_nil.
Qed.

End Completion.

(** *** The further properties on example directories *)

(** X2 at a directory with a broken header, a post, a draft and a file that
    is no markdown. *)
Lemma X2_witness :
  feed_of (markdownToJson Examples.node More_examples.mixed)
    = Some [Examples.loops_post (js "2019-08-21-rethink-loops.md")
              (JNum (Num 1566345600000))]
  ∧ markdownToJson Examples.node More_examples.mixed
    = ([Logged_exception (PackageError "yaml-front-matter: YAMLException");
        Logged_ok (JStr (js "2019-08-21-rethink-loops.md"));
        Written (targetFile More_examples.mixed)
          [Examples.loops_post (js "2019-08-21-rethink-loops.md")
             (JNum (Num 1566345600000))]], Ok ())
  ∧ ∃ fileNames,
      readdirSync More_examples.mixed (contentDir More_examples.mixed) = Ok fileNames
      ∧ markdownToJson Examples.node More_examples.mixed
        = ((Logged_exception <$>
              omap (failure Examples.node More_examples.mixed) (md_files fileNames))
             ++ (Logged_ok <$> ((λ p, get p (js "slug")) <$>
                   [Examples.loops_post (js "2019-08-21-rethink-loops.md")
                      (JNum (Num 1566345600000))]))
             ++ [Written (targetFile More_examples.mixed)
                   [Examples.loops_post (js "2019-08-21-rethink-loops.md")
                      (JNum (Num 1566345600000))]], Ok ())
      ∧ failures_of (markdownToJson Examples.node More_examples.mixed)
        = omap (failure Examples.node More_examples.mixed) (md_files fileNames)
      ∧ ∀ f e, failure Examples.node More_examples.mixed f = Some e →
          ∃ text,
            readFileSync More_examples.mixed
              (path_join (contentDir More_examples.mixed) f) = Ok text
            ∧ parse_error Examples.node text = Some e.
Proof.
  split; [by_running|]. split; [by_running|].
  apply (X2_completed_run_logs_failures_then_slugs_then_writes Examples.node
           More_examples.mixed).
  by_running.
Defined.

(** X4 at a directory whose second entry is a directory and whose fourth
    may not be read: the rejection is that of the second, and the broken
    headers of the first and of the last file are both on the console. *)
Lemma X4_witness :
  head (omap (read_error More_examples.unreadable)
          (md_files [js "2020-04-19-lifetimes-made-easy.md"; js "2020-drafts.md";
                     js "2019-08-21-rethink-loops.md"; js "2019-secret.md";
                     js "2020-05-01-lifetimes-again.md"]))
    = Some (SystemError "EISDIR")
  ∧ markdownToJson Examples.node More_examples.unreadable
    = ([Logged_exception (PackageError "yaml-front-matter: YAMLException");
        Logged_exception (PackageError "yaml-front-matter: YAMLException")],
       Throw (SystemError "EISDIR"))
  ∧ markdownToJson Examples.node More_examples.unreadable
    = (Logged_exception <$>
         omap (failure Examples.node More_examples.unreadable)
           (md_files [js "2020-04-19-lifetimes-made-easy.md"; js "2020-drafts.md";
                      js "2019-08-21-rethink-loops.md"; js "2019-secret.md";
                      js "2020-05-01-lifetimes-again.md"]),
       Throw (SystemError "EISDIR")).
Proof.
  split; [by_running|]. split; [by_running|].
  apply (X4_first_unreadable_file_rejects_the_run Examples.node More_examples.unreadable).
  - by_running.
  - by_running.
Defined.

(** X5 at the directory of X2 when the target cannot be written. *)
Lemma X5_witness :
  markdownToJson Examples.node
    (More_examples.write_protected More_examples.mixed (SystemError "EACCES"))
  = ([Logged_exception (PackageError "yaml-front-matter: YAMLException");
      Logged_ok (JStr (js "2019-08-21-rethink-loops.md"))],
     Throw (SystemError "EACCES"))
  ∧ markdownToJson Examples.node
      (More_examples.write_protected More_examples.mixed (SystemError "EACCES"))
    = ((Logged_exception <$>
          omap (failure Examples.node
                  (More_examples.write_protected More_examples.mixed (SystemError "EACCES")))
            (md_files [js "2020-04-19-lifetimes-made-easy.md";
                       js "2019-08-21-rethink-loops.md";
                       js "2018-09-27-profiling-with-php.md"; js "notes.txt"]))
         ++ ((λ p, Logged_ok (get p (js "slug"))) <$>
               [Examples.loops_post (js "2019-08-21-rethink-loops.md")
                  (JNum (Num 1566345600000))]),
       Throw (SystemError "EACCES"))
  ∧ feed_of (markdownToJson Examples.node
               (More_examples.write_protected More_examples.mixed (SystemError "EACCES")))
    = None.
Proof.
  split; [by_running|].
  apply (X5_write_failure_comes_after_the_slugs Examples.node
           (More_examples.write_protected More_examples.mixed (SystemError "EACCES"))).
  - by_running.
  - intros f Hf.
    assert (md_files [js "2020-04-19-lifetimes-made-easy.md";
                      js "2019-08-21-rethink-loops.md";
                      js "2018-09-27-profiling-with-php.md"; js "notes.txt"]
            = [js "2020-04-19-lifetimes-made-easy.md"; js "2019-08-21-rethink-loops.md";
               js "2018-09-27-profiling-with-php.md"]) as Hmd by by_running.
    rewrite Hmd, !elem_of_cons, elem_of_nil in Hf.
    destruct Hf as [->|[->|[->|[]]]]; by_running.
  - by_running.
  - right. split; [by_running|reflexivity].
Defined.

(** X6 at a directory that holds a text file and an image. *)
Lemma X6_witness :
  readdirSync More_examples.without_markdown (contentDir More_examples.without_markdown)
    = Ok [js "notes.txt"; js "cover.png"]
  ∧ markdownToJson Examples.node More_examples.without_markdown
    = ([Written (targetFile More_examples.without_markdown) []], Ok ()).
Proof.
  split; [by_running|].
  apply (X6_no_markdown_file_gives_the_empty_feed Examples.node
           More_examples.without_markdown [js "notes.txt"; js "cover.png"]).
  - apply Node_sort_permutes.
  - by_running.
  - by_running.
  - reflexivity.
Defined.

(** X7 at the directory of X2: one post, one failure, one draft, three
    [.md] files. *)
Lemma X7_witness :
  length (omap (unpublished_post Examples.node More_examples.mixed)
            (md_files [js "2020-04-19-lifetimes-made-easy.md";
                       js "2019-08-21-rethink-loops.md";
                       js "2018-09-27-profiling-with-php.md"; js "notes.txt"])) = 1%nat
  ∧ ∃ fileNames,
      readdirSync More_examples.mixed (contentDir More_examples.mixed) = Ok fileNames
      ∧ (length [Examples.loops_post (js "2019-08-21-rethink-loops.md")
                   (JNum (Num 1566345600000))]
         + length (failures_of (markdownToJson Examples.node More_examples.mixed))
         + length (omap (unpublished_post Examples.node More_examples.mixed)
                     (md_files fileNames))
         = length (md_files fileNames))%nat
      ∧ ∀ f, f ∈ md_files fileNames →
          (is_Some (entry Examples.node More_examples.mixed f)
           ∧ failure Examples.node More_examples.mixed f = None
           ∧ unpublished_post Examples.node More_examples.mixed f = None)
          ∨ (entry Examples.node More_examples.mixed f = None
             ∧ is_Some (failure Examples.node More_examples.mixed f)
             ∧ unpublished_post Examples.node More_examples.mixed f = None)
          ∨ (entry Examples.node More_examples.mixed f = None
             ∧ failure Examples.node More_examples.mixed f = None
             ∧ is_Some (unpublished_post Examples.node More_examples.mixed f)).
Proof.
  split; [by_running|].
  apply (X7_every_markdown_file_is_accounted_for Examples.node More_examples.mixed).
  - apply Node_sort_permutes.
  - by_running.
Defined.

(** X8 at the post of the directory of X2. *)
Lemma X8_witness :
  ∃ fileNames f text yamlHeader contentHtml excerpt,
    readdirSync More_examples.mixed (contentDir More_examples.mixed) = Ok fileNames
    ∧ f ∈ fileNames
    ∧ endsWith f (js ".md") = true
    ∧ readFileSync More_examples.mixed (path_join (contentDir More_examples.mixed) f)
      = Ok text
    ∧ loadFront Examples.node text = Ok yamlHeader
    ∧ Marked_parse Examples.node (get yamlHeader (js "__content")) = Ok contentHtml
    ∧ excerptHtml Examples.node contentHtml 250 = Ok excerpt
    ∧ Examples.loops_post (js "2019-08-21-rethink-loops.md") (JNum (Num 1566345600000))
        !! js "slug" = Some (JStr f)
    ∧ Examples.loops_post (js "2019-08-21-rethink-loops.md") (JNum (Num 1566345600000))
        !! js "contentHtml" = Some (JStr contentHtml)
    ∧ Examples.loops_post (js "2019-08-21-rethink-loops.md") (JNum (Num 1566345600000))
        !! js "excerptHtml" = Some (JStr excerpt)
    ∧ ∀ k, k ∉ set_by_literal →
        Examples.loops_post (js "2019-08-21-rethink-loops.md") (JNum (Num 1566345600000))
          !! k = yamlHeader !! k.
Proof.
  apply (X8_post_keeps_the_header_and_its_own_fields Examples.node More_examples.mixed
           [Examples.loops_post (js "2019-08-21-rethink-loops.md")
              (JNum (Num 1566345600000))]).
  - apply Node_sort_permutes.
  - by_running.
  - apply list_elem_of_singleton. reflexivity.
Defined.

(** X9 at a post whose header has no tags. *)
Lemma X9_witness :
  get Examples.unmarked_header (js "tags") = JUndefined
  ∧ {[js "slug"; js "contentHtml"; js "excerptHtml"; js "date"]}
      ⊆ serialized_keys More_examples.unmarked_post
  ∧ (js "tags" ∈ serialized_keys More_examples.unmarked_post
     ↔ nullish (get Examples.unmarked_header (js "tags")) = false)
  ∧ (nullish (get Examples.unmarked_header (js "tags")) = true →
     More_examples.unmarked_post !! js "tags" = Some JUndefined).
Proof.
  split; [by_running|].
  apply (X9_serialized_post_has_tags_only_when_the_header_has Examples.node
           More_examples.with_unmarked
           (file_arg More_examples.with_unmarked (js "2018-09-22-dart-io-expedition.md"))
           More_examples.unmarked_post Examples.unmarked_text Examples.unmarked_header).
  - by_running.
  - by_running.
  - by_running.
Defined.

(** X10 at a directory with a post and a draft, and the same directory
    with a subdirectory and a text file among them. *)
Lemma X10_witness :
  readdirSync More_examples.cluttered (contentDir More_examples.cluttered)
    = Ok [js "images"; js "2019-08-21-rethink-loops.md"; js "notes.txt";
          js "2018-09-27-profiling-with-php.md"]
  ∧ readFileSync More_examples.cluttered
      (path_join (contentDir More_examples.cluttered) (js "images"))
    = Throw (SystemError "EISDIR")
  ∧ markdownToJson Examples.node More_examples.plain
    = markdownToJson Examples.node More_examples.cluttered.
Proof.
  split; [by_running|]. split; [by_running|].
  apply (X10_other_files_are_never_read Examples.node More_examples.plain
           More_examples.cluttered
           [js "2019-08-21-rethink-loops.md"; js "2018-09-27-profiling-with-php.md"]
           [js "images"; js "2019-08-21-rethink-loops.md"; js "notes.txt";
            js "2018-09-27-profiling-with-php.md"]).
  - reflexivity.
  - by_running.
  - by_running.
  - by_running.
  - intros f Hf.
    assert (md_files [js "2019-08-21-rethink-loops.md";
                      js "2018-09-27-profiling-with-php.md"]
            = [js "2019-08-21-rethink-loops.md"; js "2018-09-27-profiling-with-php.md"])
      as Hmd by by_running.
    rewrite Hmd, !elem_of_cons, elem_of_nil in Hf.
    destruct Hf as [->|[->|[]]]; by_running.
  - reflexivity.
Defined.

(** X11 at three posts of different days, listed in two orders. *)
Lemma X11_witness :
  readdirSync More_examples.dated (contentDir More_examples.dated)
    = Ok [js "2016-03-13-change-to-rst-based-blogging.md"; js "2019-08-21-rethink-loops.md";
          js "2018-11-25-prepare-a-dart-package.md"]
  ∧ readdirSync More_examples.dated_otherwise (contentDir More_examples.dated_otherwise)
    = Ok [js "2018-11-25-prepare-a-dart-package.md";
          js "2016-03-13-change-to-rst-based-blogging.md"; js "2019-08-21-rethink-loops.md"]
  ∧ feed_of (markdownToJson Examples.node More_examples.dated)
    = Some More_examples.dated_feed
  ∧ feed_of (markdownToJson Examples.node More_examples.dated_otherwise)
    = Some More_examples.dated_feed.
Proof.
  split; [by_running|]. split; [by_running|]. split; [by_running|].
  apply (X11_feed_does_not_depend_on_listing_order Examples.node More_examples.dated
           More_examples.dated_otherwise
           [js "2016-03-13-change-to-rst-based-blogging.md"; js "2019-08-21-rethink-loops.md";
            js "2018-11-25-prepare-a-dart-package.md"]
           [js "2018-11-25-prepare-a-dart-package.md";
            js "2016-03-13-change-to-rst-based-blogging.md";
            js "2019-08-21-rethink-loops.md"]).
  - apply Node_sort_permutes.
  - apply Node_sort_follows_answers.
  - reflexivity.
  - reflexivity.
  - reflexivity.
  - by_running.
  - by_running.
  - symmetry. apply (Permutation_cons_append [_; _]).
  - by_running.
  - intros p Hp. unfold More_examples.dated_feed in Hp.
    rewrite !elem_of_cons, elem_of_nil in Hp.
    destruct Hp as [->|[->|[->|[]]]]; by_running.
  - intros p q Hp Hq. unfold More_examples.dated_feed in Hp, Hq.
    rewrite !elem_of_cons, elem_of_nil in Hp, Hq.
    destruct Hp as [->|[->|[->|[]]]]; destruct Hq as [->|[->|[->|[]]]];
      intros Hsame; try reflexivity; vm_compute in Hsame; discriminate Hsame.
Defined.

(** X12 at the post of the repository: three commas, four tags. *)
Lemma X12_witness :
  occurrences 44%N (js "javascript, functional, algorithms, tip") = 3%nat
  ∧ ∃ tags,
      get (Examples.loops_post (js "2019-08-21-rethink-loops.md")
             (JNum (Num 1566345600000))) (js "tags")
      = JArr (JStr <$> tags)
      ∧ length tags = S (occurrences 44%N (js "javascript, functional, algorithms, tip"))
      ∧ (js "javascript, functional, algorithms, tip" = [] → tags = [[]]).
Proof.
  split; [by_running|].
  apply (X12_one_tag_more_than_commas Examples.node More_examples.mixed
           (file_arg More_examples.mixed (js "2019-08-21-rethink-loops.md"))
           _ Examples.loops_text Examples.loops_header).
  - by_running.
  - by_running.
  - by_running.
  - by_running.
Defined.

(** X14 at two posts whose dates are mappings with a key [toString], and
    a file with a broken header between them. *)
Lemma X14_witness :
  entry Examples.node More_examples.incomparable (js "2020-09-20-rust-analyzer.md")
    = Some (More_examples.mapped_post (js "2020-09-20-rust-analyzer.md"))
  ∧ markdownToJson Examples.node More_examples.incomparable
    = ([Logged_exception (PackageError "yaml-front-matter: YAMLException")],
       Throw (TypeError "Cannot convert object to primitive value"))
  ∧ markdownToJson Examples.node More_examples.incomparable
    = (Logged_exception <$>
         omap (failure Examples.node More_examples.incomparable)
           (md_files [js "2020-09-20-rust-analyzer.md";
                      js "2020-04-19-lifetimes-made-easy.md";
                      js "2020-10-03-rust-analyzer-again.md"]),
       Throw (TypeError "Cannot convert object to primitive value"))
  ∧ feed_of (markdownToJson Examples.node More_examples.incomparable) = None
  ∧ ∃ f g p q,
      f ∈ md_files [js "2020-09-20-rust-analyzer.md";
                    js "2020-04-19-lifetimes-made-easy.md";
                    js "2020-10-03-rust-analyzer-again.md"]
      ∧ g ∈ md_files [js "2020-09-20-rust-analyzer.md";
                      js "2020-04-19-lifetimes-made-easy.md";
                      js "2020-10-03-rust-analyzer-again.md"]
      ∧ entry Examples.node More_examples.incomparable f = Some p
      ∧ entry Examples.node More_examples.incomparable g = Some q
      ∧ IsLessThan_other Examples.node (get p (js "date")) (get q (js "date"))
        = Throw (TypeError "Cannot convert object to primitive value")
      ∧ (to_number (get p (js "date")) = None ∨ to_number (get q (js "date")) = None).
Proof.
  split; [by_running|]. split; [by_running|].
  apply (X14_dates_without_primitive_value_reject_inside_sort Examples.node More_examples.incomparable).
  - apply Node_sort_permutes.
  - by_running.
  - intros f Hf.
    assert (md_files [js "2020-09-20-rust-analyzer.md";
                      js "2020-04-19-lifetimes-made-easy.md";
                      js "2020-10-03-rust-analyzer-again.md"]
            = [js "2020-09-20-rust-analyzer.md"; js "2020-04-19-lifetimes-made-easy.md";
               js "2020-10-03-rust-analyzer-again.md"]) as Hmd by by_running.
    rewrite Hmd, !elem_of_cons, elem_of_nil in Hf.
    destruct Hf as [->|[->|[->|[]]]]; by_running.
  - by_running.
Defined.

(** X15 at the directory of X2. *)
Lemma X15_witness :
  ∃ feed,
    (markdownToJson Examples.node More_examples.mixed).2 = Ok ()
    ∧ feed_of (markdownToJson Examples.node More_examples.mixed) = Some feed
    ∧ feed ≡ₚ omap (entry Examples.node More_examples.mixed)
                (md_files [js "2020-04-19-lifetimes-made-easy.md";
                           js "2019-08-21-rethink-loops.md";
                           js "2018-09-27-profiling-with-php.md"; js "notes.txt"])
    ∧ failures_of (markdownToJson Examples.node More_examples.mixed)
      = omap (failure Examples.node More_examples.mixed)
          (md_files [js "2020-04-19-lifetimes-made-easy.md";
                     js "2019-08-21-rethink-loops.md";
                     js "2018-09-27-profiling-with-php.md"; js "notes.txt"]).
Proof.
  assert (md_files [js "2020-04-19-lifetimes-made-easy.md";
                    js "2019-08-21-rethink-loops.md";
                    js "2018-09-27-profiling-with-php.md"; js "notes.txt"]
          = [js "2020-04-19-lifetimes-made-easy.md"; js "2019-08-21-rethink-loops.md";
             js "2018-09-27-profiling-with-php.md"]) as Hmd by by_running.
  apply (X15_build_completes Examples.node More_examples.mixed).
  - apply Node_sort_permutes.
  - by_running.
  - intros f Hf. rewrite Hmd, !elem_of_cons, elem_of_nil in Hf.
    destruct Hf as [->|[->|[->|[]]]]; by_running.
  - intros f p Hf. rewrite Hmd, !elem_of_cons, elem_of_nil in Hf.
    destruct Hf as [->|[->|[->|[]]]].
    + assert (entry Examples.node More_examples.mixed
                (js "2020-04-19-lifetimes-made-easy.md") = None) as -> by by_running.
      intros Hnone. discriminate Hnone.
    + assert (entry Examples.node More_examples.mixed (js "2019-08-21-rethink-loops.md")
              = Some (Examples.loops_post (js "2019-08-21-rethink-loops.md")
                        (JNum (Num 1566345600000)))) as -> by by_running.
      intros Hsome. injection Hsome as <-. split; by_running.
    + assert (entry Examples.node More_examples.mixed
                (js "2018-09-27-profiling-with-php.md") = None) as -> by by_running.
      intros Hnone. discriminate Hnone.
  - reflexivity.
Defined.

(** X16 at the post whose series is a sequence that holds itself. *)
Lemma X16_witness :
  JSON_stringify [C5_examples.looping_post]
    = Throw (TypeError "Converting circular structure to JSON")
  ∧ Examples.looping_header !! js "series" = Some (JArr [JAlias 0])
  ∧ (JSON_stringify [C5_examples.looping_post] = Ok () ↔
     ∀ k v, Examples.looping_header !! k = Some v → k ∉ replaced_by_string →
            circular v = false).
Proof.
  split; [by_running|]. split; [by_running|].
  apply (X16_post_holds_itself_only_through_the_header Examples.node
           C5_examples.blog_with_alias
           (file_arg C5_examples.blog_with_alias (js "2020-06-07-proc-macro.md"))
           C5_examples.looping_post Examples.looping_text Examples.looping_header).
  - by_running.
  - by_running.
  - by_running.
Defined.
